(** * video-recorder API: ingestion pipeline and recordings repository

    A shallow embedding of the Express API of the video recorder:

    - [apps/api/src/middlewares/upload.ts]  the multer upload middleware,
    - [apps/api/src/config/db.ts]           the cached database handle,
    - [apps/api/src/services/videoService.ts] the [VideoService] class,
    - [apps/api/src/routes/video.ts]        the [/upload] and [/:id] routes,
    - [apps/api/src/index.ts]               the error handler and the hourly
                                            cleanup of the uploads directory.

    [processVideo] is an [async] function: it runs synchronously between two
    [await]s and may be interleaved with other requests at each [await].  It is
    embedded as a machine with one control state per [await]; the file system,
    the [recordings] collection and the clock are an explicit shared [World].
    What the outside world answers (ffmpeg, the transcription backend, the
    database, the disk) is an [Oracle] given with each request. *)

From Stdlib Require Import Ascii.
From stdpp Require Import base numbers option list gmap strings pretty sorting.

Open Scope string_scope.
Open Scope list_scope.
Open Scope N_scope.

(** ** Values *)

(** A Node [Buffer]: a sequence of bytes (each [ascii] is one byte). *)
Definition Buffer : Type := string.

(** [buf.toString('base64')]: RFC 4648 base64 with padding. *)
Definition base64_alphabet : string :=
  "ABCDEFGHIJKLMNOPQRSTUVWXYZabcdefghijklmnopqrstuvwxyz0123456789+/".

Definition base64_char (n : N) : ascii :=
  default "="%char (String.get (N.to_nat n) base64_alphabet).

Fixpoint base64 (b : Buffer) : string :=
  match b with
  | "" => ""
  | String x "" =>
      let x := N_of_ascii x in
      String (base64_char (N.shiftr x 2))
        (String (base64_char (N.shiftl (N.land x 3) 4)) "==")
  | String x (String y "") =>
      let x := N_of_ascii x in
      let y := N_of_ascii y in
      String (base64_char (N.shiftr x 2))
        (String (base64_char (N.lor (N.shiftl (N.land x 3) 4) (N.shiftr y 4)))
           (String (base64_char (N.shiftl (N.land y 15) 2)) "="))
  | String x (String y (String z rest)) =>
      let x := N_of_ascii x in
      let y := N_of_ascii y in
      let z := N_of_ascii z in
      String (base64_char (N.shiftr x 2))
        (String (base64_char (N.lor (N.shiftl (N.land x 3) 4) (N.shiftr y 4)))
           (String (base64_char (N.lor (N.shiftl (N.land y 15) 2) (N.shiftr z 6)))
              (String (base64_char (N.land z 63)) (base64 rest))))
  end.

(** Errors, named after what raises them in the source. *)
Inductive Syscall := sys_open | sys_unlink.

Inductive FfmpegJob := job_screenshots | job_toFormat_mp3.

Inductive Error :=
| NoVideoFileUploaded                          (* routes/video.ts, [!req.file] *)
| InvalidFileType                              (* upload.ts, fileFilter; routes/video.ts *)
| LIMIT_FILE_SIZE                              (* MulterError raised by [limits.fileSize] *)
| LIMIT_FILE_COUNT                             (* MulterError raised by [limits.files] *)
| LIMIT_UNEXPECTED_FILE                        (* MulterError, a file outside [single('video')] *)
| EIO (path : string)                          (* [writeFile] rejected *)
| ENOENT (call : Syscall) (path : string)      (* no such file or directory *)
| FfmpegError (job : FfmpegJob)                (* the ['error'] event of a command *)
| OpenAIError                                  (* [transcriptions.create] rejected *)
| MongoConnectError                            (* [client.connect] rejected *)
| MongoServerError                             (* a collection operation rejected *)
| DuplicateKey                                 (* E11000 on the [_id] index *)
| BSONError.                                   (* [new ObjectId(id)] on a malformed [id] *)

Inductive Result (A : Type) :=
| Ok (a : A)
| Err (e : Error).
Arguments Ok {A} a.
Arguments Err {A} e.

(** *** ObjectId

    The [mongodb] driver is not part of the repository.  An [ObjectId] is a
    12-byte value; [new ObjectId(id)] on a string accepts the strings of 24
    hexadecimal characters and throws on every other string (as the driver
    does since bson 6; older versions also took a string of 12 characters as
    the 12 bytes); [toString()] prints the 24 lower-case hexadecimal
    characters. *)
Definition ObjectId : Type := N.

Definition hex_digit (c : ascii) : option N :=
  let n := N_of_ascii c in
  if (48 <=? n) && (n <=? 57) then Some (n - 48)
  else if (97 <=? n) && (n <=? 102) then Some (n - 87)
  else if (65 <=? n) && (n <=? 70) then Some (n - 55)
  else None.

Fixpoint hex_value (acc : N) (s : string) : option N :=
  match s with
  | "" => Some acc
  | String c s' =>
      match hex_digit c with
      | Some d => hex_value (16 * acc + d) s'
      | None => None
      end
  end.

Definition ObjectId_of_string (id : string) : Result ObjectId :=
  if decide (String.length id = 24%nat) then
    match hex_value 0 id with
    | Some n => Ok n
    | None => Err BSONError
    end
  else Err BSONError.

Definition hex_char (d : N) : ascii :=
  default "0"%char (String.get (N.to_nat d) "0123456789abcdef").

Fixpoint hex_digits (k : nat) (n : N) (acc : string) : string :=
  match k with
  | O => acc
  | S k' => hex_digits k' (n / 16) (String (hex_char (n mod 16)) acc)
  end.

Definition ObjectId_toString (oid : ObjectId) : string := hex_digits 24 oid "".

(** ** Data model *)

(** [Express.Multer.File], the fields the API reads. *)
Module File.
Record t := mk {
    originalname : string;
    mimetype : string;
    size : N;
    buffer : Buffer;
}.
End File.

(** [interface Recording] (videoService.ts).  [createdAt] is a [Date]: the
    number of milliseconds since the epoch. *)
Module Recording.
Record t := mk {
    _id : ObjectId;
    filename : string;
    originalName : string;
    mimeType : string;
    size : N;
    snapshot : option string;
    transcription : option string;
    createdAt : N;
}.
End Recording.

(** ** The shared world

    [files] is the content of the uploads directory: for each path the bytes
    of the file and the time of its last modification ([mtimeMs]);
    [recordings] is the collection of that name in insertion order, [cachedDb]
    the module variable of [config/db.ts] (true once a handle is cached),
    [clock] what [Date.now()] reads, and [oid_supply] the generator behind
    [new ObjectId()]. *)
Record World := mkWorld {
  clock : N;
  files : gmap string (Buffer * N);
  recordings : list Recording.t;
  cachedDb : bool;
  oid_supply : N;
}.

(** What one request is answered by the processes and services outside the
    program.  [lapse] is the time that passes between the three [Date.now()]
    calls that name the temporary files. *)
Record Oracle := mkOracle {
  lapse : N * N;
  writeFile_ok : bool;
  screenshots_out : option Buffer;
  toFormat_out : option Buffer;
  transcription_text : option string;
  connect_ok : bool;
  insertOne_ok : bool;
}.

(** What a run did to the store and to its temporary files. *)
Inductive Event :=
| InsertOne (doc : Recording.t)
| Unlink (path : string).

(** *** A monad for the synchronous stretches

    State is the world and the events of the running request; a thrown error
    keeps the state reached so far. *)
Definition St : Type := World * list Event.
Definition M (A : Type) : Type := St -> St * Result A.

#[global] Instance M_ret : MRet M := fun A a s => (s, Ok a).
#[global] Instance M_bind : MBind M := fun A B f m s =>
  match m s with
  | (s', Ok a) => f a s'
  | (s', Err e) => (s', Err e)
  end.

Definition throw {A} (e : Error) : M A := fun s => (s, Err e).

(** *** The file system, the clock and ffmpeg *)

Definition Date_now : M N := fun s => (s, Ok (clock s.1)).

Definition elapse (ms : N) : M () := fun '(w, tr) =>
  ((mkWorld (clock w + ms) (files w) (recordings w) (cachedDb w) (oid_supply w), tr), Ok ()).

Definition put_file (path : string) (data : Buffer) : M () := fun '(w, tr) =>
  ((mkWorld (clock w) (<[path := (data, clock w)]> (files w)) (recordings w) (cachedDb w)
      (oid_supply w), tr),
   Ok ()).

Definition exists_file (path : string) : M bool := fun s =>
  (s, Ok (bool_decide (is_Some (files s.1 !! path)))).

(** [writeFileAsync(path, data)], promisified [fs.writeFile]. *)
Definition writeFileAsync (ok : bool) (path : string) (data : Buffer) : M () :=
  if ok then put_file path data else throw (EIO path).

(** [fs.readFileSync(path, 'base64')]. *)
Definition readFileSync_base64 (path : string) : M string := fun s =>
  match files s.1 !! path with
  | Some (data, _) => (s, Ok (base64 data))
  | None => (s, Err (ENOENT sys_open path))
  end.

(** [fs.unlinkSync(path)]. *)
Definition unlinkSync (path : string) : M () := fun '(w, tr) =>
  match files w !! path with
  | Some _ =>
      ((mkWorld (clock w) (delete path (files w)) (recordings w) (cachedDb w) (oid_supply w),
        tr ++ [Unlink path]), Ok ())
  | None => ((w, tr), Err (ENOENT sys_unlink path))
  end.

(** The hourly timer of [index.ts]: every file of the uploads directory last
    modified more than an hour ago is unlinked. *)
Definition stale (now : N) (entry : string * (Buffer * N)) : Prop :=
  3600000 < now - entry.2.2.

#[global] Instance stale_dec now entry : Decision (stale now entry).
Proof. unfold stale. apply _. Defined.

Definition sweep : M () := fun '(w, tr) =>
  ((mkWorld (clock w) (filter (fun entry => ~ stale (clock w) entry) (files w))
      (recordings w) (cachedDb w) (oid_supply w), tr), Ok ()).

(** [generateThumbnail]: the promise resolves on ffmpeg's ['end'] event, after
    the screenshot is written at [outputPath], and rejects on ['error'];
    ffmpeg fails on an input file that does not exist. *)
Definition generateThumbnail (out : option Buffer) (videoPath outputPath : string) : M () :=
  present ← exists_file videoPath;
  match present, out with
  | true, Some image => put_file outputPath image
  | _, _ => throw (FfmpegError job_screenshots)
  end.

(** [extractAudio]: as above, for [toFormat('mp3') ... save(outputPath)]. *)
Definition extractAudio (out : option Buffer) (videoPath outputPath : string) : M () :=
  present ← exists_file videoPath;
  match present, out with
  | true, Some audio => put_file outputPath audio
  | _, _ => throw (FfmpegError job_toFormat_mp3)
  end.

(** [transcribeAudio]: streams the file at [audioPath] to the backend and
    returns [transcription.text]. *)
Definition transcribeAudio (text : option string) (audioPath : string) : M string :=
  present ← exists_file audioPath;
  if present : bool then
    match text with
    | Some t => mret t
    | None => throw OpenAIError
    end
  else throw (ENOENT sys_open audioPath).

(** *** The database *)

(** [connectToDatabase] (config/db.ts). *)
Definition connectToDatabase (ok : bool) : M () := fun '(w, tr) =>
  if cachedDb w then ((w, tr), Ok ())
  else if ok then
    ((mkWorld (clock w) (files w) (recordings w) true (oid_supply w), tr), Ok ())
  else ((w, tr), Err MongoConnectError).

(** [new ObjectId()]: a fresh identifier. *)
Definition new_ObjectId : M ObjectId := fun '(w, tr) =>
  ((mkWorld (clock w) (files w) (recordings w) (cachedDb w) (oid_supply w + 1), tr),
   Ok (oid_supply w)).

(** [new ObjectId(id)]. *)
Definition new_ObjectId_of (id : string) : M ObjectId := fun s => (s, ObjectId_of_string id).

Definition has_id (oid : ObjectId) (doc : Recording.t) : bool :=
  bool_decide (Recording._id doc = oid).

(** [collection.insertOne(doc)]: the [_id] index is unique. *)
Definition insertOne (ok : bool) (doc : Recording.t) : M ObjectId := fun '(w, tr) =>
  if ok then
    if existsb (has_id (Recording._id doc)) (recordings w) then ((w, tr), Err DuplicateKey)
    else
      ((mkWorld (clock w) (files w) (recordings w ++ [doc]) (cachedDb w) (oid_supply w),
        tr ++ [InsertOne doc]), Ok (Recording._id doc))
  else ((w, tr), Err MongoServerError).

(** [collection.findOne({ _id: oid })]. *)
Definition findOne (ok : bool) (oid : ObjectId) : M (option Recording.t) := fun s =>
  if ok then (s, Ok (find (has_id oid) (recordings s.1)))
  else (s, Err MongoServerError).

(** *** Sorting on the server

    The sort specification is the program's: the keys it hands to [sort()],
    each with its direction, [1] for ascending and [-1] for descending.  The
    sorting is the server's: it comes by the documents of the collection in
    an order of its own (their natural order, which need not be the insertion
    order) and arranges them by the keys of the specification, the first key
    first; documents that agree on every key stay in the order in which the
    server came by them. *)
Inductive SortKey := key__id | key_createdAt.

Definition SortSpec : Type := list (SortKey * Z).

Definition key_value (key : SortKey) (doc : Recording.t) : N :=
  match key with
  | key__id => Recording._id doc
  | key_createdAt => Recording.createdAt doc
  end.

(** Whether [a] may stand before [b] in a list sorted by [spec]. *)
Fixpoint sorts_before (spec : SortSpec) (a b : Recording.t) : bool :=
  match spec with
  | [] => true
  | (key, direction) :: spec' =>
      match key_value key a ?= key_value key b with
      | Eq => sorts_before spec' a b
      | Lt => (0 <? direction)%Z
      | Gt => (direction <? 0)%Z
      end
  end.

Fixpoint insert_by (before : Recording.t -> Recording.t -> bool) (doc : Recording.t)
    (docs : list Recording.t) : list Recording.t :=
  match docs with
  | [] => [doc]
  | doc' :: docs' =>
      if before doc doc' then doc :: docs else doc' :: insert_by before doc docs'
  end.

Definition sort_by (before : Recording.t -> Recording.t -> bool) (docs : list Recording.t)
  : list Recording.t := foldr (insert_by before) [] docs.

(** The natural order of a collection stored in the order [docs], for a query:
    each of the server's [picks] brings the document at that position to the
    front. *)
Definition natural_order (picks : list nat) (docs : list Recording.t) : list Recording.t :=
  foldl (fun l k => match l !! k with Some doc => doc :: delete k l | None => l end)
    docs picks.

(** [collection.find().sort(spec).toArray()]; [picks] is the server's. *)
Definition find_sort_toArray (spec : SortSpec) (picks : list nat) (ok : bool)
  : M (list Recording.t) := fun s =>
  if ok then (s, Ok (sort_by (sorts_before spec) (natural_order picks (recordings s.1))))
  else (s, Err MongoServerError).

Fixpoint remove_first (oid : ObjectId) (docs : list Recording.t) : list Recording.t :=
  match docs with
  | [] => []
  | doc :: docs' => if has_id oid doc then docs' else doc :: remove_first oid docs'
  end.

(** [collection.deleteOne({ _id: oid })]. *)
Definition deleteOne (ok : bool) (oid : ObjectId) : M () := fun '(w, tr) =>
  if ok then
    ((mkWorld (clock w) (files w) (remove_first oid (recordings w)) (cachedDb w) (oid_supply w),
      tr), Ok ())
  else ((w, tr), Err MongoServerError).

(** ** middlewares/upload.ts *)

(** [process.env.MAX_FILE_SIZE], as the number [parseInt] reads from it;
    [None] when the variable is not set. *)
Record ProcessEnv := mkEnv {
  MAX_FILE_SIZE : option N;
}.

Definition limits_fileSize (env : ProcessEnv) : N :=
  match MAX_FILE_SIZE env with
  | Some n => n
  | None => 100 * 1024 * 1024
  end.

Definition allowedTypes : list string :=
  [ "video/mp4"; "video/webm"; "video/x-m4v"; "video/x-msvideo"; "video/x-flv";
    "video/x-matroska" ].

Definition fileFilter (file : File.t) : Result () :=
  if bool_decide (File.mimetype file ∈ allowedTypes) then Ok ()
  else Err InvalidFileType.

(** [limits.files]. *)
Definition limits_files : nat := 1.

(** A file part of a multipart body: the name of its field and the file. *)
Record Part := mkPart {
  fieldname : string;
  part_file : File.t;
}.

(** [multer]'s [single(name)] with memory storage, over the file parts of the
    body in the order in which they arrive; [files] counts the file parts
    seen, [filesLeft] is what is left of the one file that [single] takes, and
    [req_file] is [req.file] so far.  A part beyond [limits.files] ends the
    request; a part of another field, or one more of this field, is unexpected;
    then the file filter runs, and the size limit while the part is read into
    memory: the part is cut off, and the request refused, as soon as the
    bytes read reach [limits.fileSize], as multer 1.4.5-lts and multer 2 do,
    so a file of exactly the limit is refused.  The first error is the one
    handed to [next]. *)
Fixpoint multer_single (env : ProcessEnv) (name : string) (files filesLeft : nat)
    (req_file : option File.t) (parts : list Part) : Result (option File.t) :=
  match parts with
  | [] => Ok req_file
  | part :: parts' =>
      if (limits_files <=? files)%nat then Err LIMIT_FILE_COUNT
      else if negb (String.eqb (fieldname part) name) || (filesLeft =? 0)%nat
      then Err LIMIT_UNEXPECTED_FILE
      else
        match fileFilter (part_file part) with
        | Err e => Err e
        | Ok _ =>
            if limits_fileSize env <=? File.size (part_file part) then Err LIMIT_FILE_SIZE
            else multer_single env name (S files) (pred filesLeft) (Some (part_file part))
                   parts'
        end
  end.

(** [upload.single('video')]: the result is [req.file], or the error handed
    to [next]. *)
Definition upload_single_parts (env : ProcessEnv) (parts : list Part)
  : Result (option File.t) := multer_single env "video" 0 1 None parts.

(** The body the web client builds, [formData.append('video', videoBlob,
    filename)] (VideoRecorder.tsx): one file part in the field [video]; and
    the body of a request without a file. *)
Definition formData (part : option File.t) : list Part :=
  match part with
  | Some file => [mkPart "video" file]
  | None => []
  end.

(** [upload.single('video')] on such a body. *)
Definition upload_single (env : ProcessEnv) (part : option File.t) : Result (option File.t) :=
  upload_single_parts env (formData part).

(** ** services/videoService.ts *)

Record VideoService := mkService {
  uploadsDir : string;
}.

(** [path.join(dir, name)] for a normalised [dir] and a plain file [name]. *)
Definition path_join (dir name : string) : string := dir +:+ "/" +:+ name.

Record Paths := mkPaths {
  tempVideoPath : string;
  thumbnailPath : string;
  audioPath : string;
}.

(** The three names of one run, from the three clock readings. *)
Definition tempPaths (dir : string) (t1 t2 t3 : N) : Paths :=
  {| tempVideoPath := path_join dir ("temp-" +:+ pretty t1 +:+ ".mp4");
     thumbnailPath := path_join dir ("thumbnail-" +:+ pretty t2 +:+ ".jpg");
     audioPath := path_join dir ("audio-" +:+ pretty t3 +:+ ".mp3") |}.

(** Where a call of [processVideo] stands: before its first statement,
    suspended at one of its six [await]s, or finished. *)
Inductive Pc :=
| Start
| AwaitWriteFile (p : Paths)
| AwaitGenerateThumbnail (p : Paths)
| AwaitExtractAudio (p : Paths)
| AwaitTranscribeAudio (p : Paths)
| AwaitConnect (p : Paths) (transcription : string)
| AwaitInsertOne (p : Paths) (transcription : string) (doc : Recording.t)
| Returned (id : string) (transcription : string)
| Thrown (e : Error).

(** [processVideo], from one suspension point to the next.  The awaited
    operation takes effect when the call is resumed. *)
Definition processVideo (this : VideoService) (file : File.t) (o : Oracle) (pc : Pc) : M Pc :=
  match pc with
  | Start =>
      t1 ← Date_now;
      elapse (lapse o).1;;
      t2 ← Date_now;
      elapse (lapse o).2;;
      t3 ← Date_now;
      mret (AwaitWriteFile (tempPaths (uploadsDir this) t1 t2 t3))
  | AwaitWriteFile p =>
      writeFileAsync (writeFile_ok o) (tempVideoPath p) (File.buffer file);;
      mret (AwaitGenerateThumbnail p)
  | AwaitGenerateThumbnail p =>
      generateThumbnail (screenshots_out o) (tempVideoPath p) (thumbnailPath p);;
      mret (AwaitExtractAudio p)
  | AwaitExtractAudio p =>
      extractAudio (toFormat_out o) (tempVideoPath p) (audioPath p);;
      mret (AwaitTranscribeAudio p)
  | AwaitTranscribeAudio p =>
      transcription ← transcribeAudio (transcription_text o) (audioPath p);
      mret (AwaitConnect p transcription)
  | AwaitConnect p transcription =>
      connectToDatabase (connect_ok o);;
      thumbnail ← readFileSync_base64 (thumbnailPath p);
      oid ← new_ObjectId;
      now ← Date_now;
      mret (AwaitInsertOne p transcription
              {| Recording._id := oid;
                 Recording.filename := File.originalname file;
                 Recording.originalName := File.originalname file;
                 Recording.mimeType := File.mimetype file;
                 Recording.size := File.size file;
                 Recording.snapshot := None;
                 Recording.transcription := Some transcription;
                 Recording.createdAt := now |})
  | AwaitInsertOne p transcription doc =>
      insertedId ← insertOne (insertOne_ok o) doc;
      unlinkSync (tempVideoPath p);;
      unlinkSync (audioPath p);;
      unlinkSync (thumbnailPath p);;
      mret (Returned (ObjectId_toString insertedId) transcription)
  | Returned _ _ | Thrown _ => mret pc
  end.

(** [getRecordings]: [find().sort({ createdAt: -1 }).toArray()]. *)
Definition getRecordings (picks : list nat) (connect_ok find_ok : bool)
  : M (list Recording.t) :=
  connectToDatabase connect_ok;;
  find_sort_toArray [(key_createdAt, (-1)%Z)] picks find_ok.

(** [getRecording]. *)
Definition getRecording (connect_ok findOne_ok : bool) (id : string) : M (option Recording.t) :=
  connectToDatabase connect_ok;;
  oid ← new_ObjectId_of id;
  findOne findOne_ok oid.

(** [deleteRecording]. *)
Definition deleteRecording (connect_ok deleteOne_ok : bool) (id : string) : M () :=
  connectToDatabase connect_ok;;
  oid ← new_ObjectId_of id;
  deleteOne deleteOne_ok oid.

(** Most recent first. *)
Definition createdAt_desc (a b : Recording.t) : Prop :=
  Recording.createdAt b <= Recording.createdAt a.

(** ** One request in flight *)
Record Run := mkRun {
  file : File.t;
  oracle : Oracle;
  pc : Pc;
  trace : list Event;
}.

(** Resume a suspended call; the [catch] block logs and rethrows. *)
Definition resume (this : VideoService) (w : World) (r : Run) : World * Run :=
  match processVideo this (file r) (oracle r) (pc r) (w, trace r) with
  | ((w', tr'), Ok pc') => (w', mkRun (file r) (oracle r) pc' tr')
  | ((w', tr'), Err e) => (w', mkRun (file r) (oracle r) (Thrown e) tr')
  end.

(** ** routes/video.ts and the event loop *)

Inductive Response :=
| Status (code : N) (error : Error).

Record System := mkSystem {
  world : World;
  runs : list Run;
}.

(** [router.post('/upload', upload.single('video'), ...)]: an error of the
    middleware goes to the error handler of [index.ts] (500); the handler
    answers 400 itself, or calls [processVideo], which runs up to its first
    [await]. *)
Definition post_upload_parts (env : ProcessEnv) (this : VideoService)
    (parts : list Part) (o : Oracle) (s : System) : System * option Response :=
  match upload_single_parts env parts with
  | Err e => (s, Some (Status 500 e))
  | Ok None => (s, Some (Status 400 NoVideoFileUploaded))
  | Ok (Some file) =>
      if bool_decide (File.mimetype file ∈
           [ "video/mp4"; "video/x-m4v"; "video/x-msvideo"; "video/x-flv";
             "video/x-matroska"; "video/webm" ])
      then
        let '(w, r) := resume this (world s) (mkRun file o Start []) in
        (mkSystem w (runs s ++ [r]), None)
      else (s, Some (Status 400 InvalidFileType))
  end.

(** The route on a request with at most one file, in the field [video]. *)
Definition post_upload (env : ProcessEnv) (this : VideoService)
    (part : option File.t) (o : Oracle) (s : System) : System * option Response :=
  post_upload_parts env this (formData part) o s.

(** [router.delete('/:id', ...)]. *)
Definition delete_id (connect_ok deleteOne_ok : bool) (id : string) (s : System) : System :=
  mkSystem (deleteRecording connect_ok deleteOne_ok id (world s, [])).1.1 (runs s).

(** What the event loop does next: time passes, a request arrives, the
    cleanup timer fires, or a suspended [processVideo] is resumed.  The two
    GET routes only read the store and are not actions. *)
Inductive Action :=
| Tick (ms : N)
| PostUpload (part : option File.t) (o : Oracle)
| DeleteId (connect_ok deleteOne_ok : bool) (id : string)
| Sweep
| Resume (i : nat).

Definition act (env : ProcessEnv) (this : VideoService) (s : System) (a : Action) : System :=
  match a with
  | Tick ms => mkSystem (elapse ms (world s, [])).1.1 (runs s)
  | PostUpload part o => (post_upload env this part o s).1
  | DeleteId c d id => delete_id c d id s
  | Sweep => mkSystem (sweep (world s, [])).1.1 (runs s)
  | Resume i =>
      match runs s !! i with
      | Some r =>
          let '(w, r') := resume this (world s) r in
          mkSystem w (<[i := r']> (runs s))
      | None => s
      end
  end.

Definition exec (env : ProcessEnv) (this : VideoService) (s : System) (sched : list Action)
  : System := foldl (act env this) s sched.

(** The server after start-up: no request yet. *)
Definition boot (w : World) : System := mkSystem w [].

(** *** Inserts and unlinks of a call *)

Definition inserts (tr : list Event) : list Recording.t :=
  omap (fun ev => match ev with InsertOne doc => Some doc | Unlink _ => None end) tr.

Definition unlinks (tr : list Event) : list string :=
  omap (fun ev => match ev with Unlink path => Some path | InsertOne _ => None end) tr.

(** The temporary files of a call, once it has named them. *)
Definition paths_of (c : Pc) : option Paths :=
  match c with
  | AwaitWriteFile p | AwaitGenerateThumbnail p | AwaitExtractAudio p
  | AwaitTranscribeAudio p | AwaitConnect p _ | AwaitInsertOne p _ _ => Some p
  | Start | Returned _ _ | Thrown _ => None
  end.

Definition raised_by_cleanup (e : Error) : bool :=
  match e with
  | ENOENT sys_unlink _ => true
  | _ => false
  end.

(** The document [processVideo] builds for [file] and [transcription]
    (lines "Save to database" of the source). *)
Definition built_from (f : File.t) (t : string) (doc : Recording.t) : Prop :=
  Recording.filename doc = File.originalname f /\
  Recording.originalName doc = File.originalname f /\
  Recording.mimeType doc = File.mimetype f /\
  Recording.size doc = File.size f /\
  Recording.snapshot doc = None /\
  Recording.transcription doc = Some t.

(** What holds of a call of [processVideo] at each point of its control. *)
Definition run_inv (r : Run) : Prop :=
  match pc r with
  | AwaitInsertOne _ t doc => trace r = [] /\ built_from (file r) t doc
  | Returned id t =>
      exists p doc, built_from (file r) t doc
        /\ id = ObjectId_toString (Recording._id doc)
        /\ trace r = [InsertOne doc; Unlink (tempVideoPath p); Unlink (audioPath p);
                      Unlink (thumbnailPath p)]
  | Thrown (ENOENT sys_unlink _) =>
      exists t doc us, built_from (file r) t doc /\ trace r = InsertOne doc :: map Unlink us
  | _ => trace r = []
  end.

Definition createdAt_lt (a b : Recording.t) : Prop :=
  Recording.createdAt a < Recording.createdAt b.

(** What holds of the files of a call that runs alone. *)
Definition on_disk (w : World) (paths : list string) : Prop :=
  Forall (fun path => is_Some (files w !! path)) paths.

Definition distinct (p : Paths) : Prop :=
  NoDup [tempVideoPath p; thumbnailPath p; audioPath p].

Definition lone_inv (w : World) (r : Run) : Prop :=
  match pc r with
  | Start => True
  | AwaitWriteFile p => distinct p
  | AwaitGenerateThumbnail p => distinct p /\ on_disk w [tempVideoPath p]
  | AwaitExtractAudio p => distinct p /\ on_disk w [tempVideoPath p; thumbnailPath p]
  | AwaitTranscribeAudio p | AwaitConnect p _ | AwaitInsertOne p _ _ =>
      distinct p /\ on_disk w [tempVideoPath p; thumbnailPath p; audioPath p]
  | Returned _ _ => Forall (fun path => files w !! path = None) (unlinks (trace r))
  | Thrown e => raised_by_cleanup e = false
  end.

(** Time passing and calls being resumed: no new request. *)
Definition quiet (a : Action) : bool :=
  match a with
  | Tick _ | Resume _ => true
  | PostUpload _ _ | DeleteId _ _ _ | Sweep => false
  end.

Definition unique_ids (docs : list Recording.t) : Prop := NoDup (Recording._id <$> docs).

(** *** Sample inputs *)

Definition demo_env : ProcessEnv := mkEnv None.
Definition demo_service : VideoService := mkService "/app/src/uploads".
Definition demo_world : World := mkWorld 1700000000000 ∅ [] false 7.

Definition clip_a : File.t := File.mk "a.mp4" "video/mp4" 3 "abc".
Definition clip_b : File.t := File.mk "b.webm" "video/webm" 3 "xyz".
Definition paper : File.t := File.mk "paper.pdf" "application/pdf" 3 "%PD".
Definition huge : File.t := File.mk "long.mp4" "video/mp4" (100 * 1024 * 1024 + 1) "".

(** Every stage answers. *)
Definition all_fine : Oracle :=
  mkOracle (0, 0) true (Some "JPG") (Some "MP3") (Some "hello world") true true.

(** The source has no audio stream: ffmpeg's mp3 job fails. *)
Definition no_audio : Oracle :=
  mkOracle (0, 0) true (Some "JPG") None (Some "hello world") true true.

Definition doc_1 : Recording.t :=
  Recording.mk 1 "a.mp4" "a.mp4" "video/mp4" 3 None (Some "one") 1700000000000.
Definition doc_2 : Recording.t :=
  Recording.mk 2 "b.mp4" "b.mp4" "video/mp4" 3 None (Some "two") 1700000000000.
Definition doc_3 : Recording.t :=
  Recording.mk 3 "c.mp4" "c.mp4" "video/mp4" 3 None (Some "three") 1700000000005.

Definition two_docs : World := mkWorld 1700000000001 ∅ [doc_1; doc_2] true 3.
Definition doc_10 : Recording.t :=
  Recording.mk 10 "d.mp4" "d.mp4" "video/mp4" 3 None (Some "ten") 1700000000007.
Definition hex_docs : World := mkWorld 1700000000009 ∅ [doc_1; doc_10] true 11.
Definition increasing_docs : World := mkWorld 1700000000009 ∅ [doc_1; doc_3] true 4.

(** Bodies that the web client does not send: a file in another field, and
    two files. *)
Definition wrong_field : list Part := [ mkPart "file" clip_a ].
Definition two_files : list Part := [ mkPart "video" clip_a; mkPart "video" clip_b ].

(** Two uploads accepted within one millisecond, resumed in turn. *)
Definition same_millisecond : list Action :=
  [ PostUpload (Some clip_a) all_fine; PostUpload (Some clip_b) all_fine ].

Definition in_turn : list Action :=
  [ Resume 0; Resume 1; Resume 0; Resume 1; Resume 0; Resume 1;
    Resume 0; Resume 1; Resume 0; Resume 1; Resume 0; Resume 1 ]%nat.

(** One upload of a clip without audio, run until it stops. *)
Definition silent_clip : list Action :=
  [ PostUpload (Some clip_a) no_audio; Resume 0; Resume 0; Resume 0 ]%nat.

(** One upload for which every stage answers, up to the pending insert, and to
    its end. *)
Definition good_clip_before_insert : list Action :=
  [ PostUpload (Some clip_a) all_fine; Resume 0; Resume 0; Resume 0; Resume 0; Resume 0 ]%nat.

Definition good_clip : list Action := good_clip_before_insert ++ [ Resume 0%nat ].

(** The call of the last schedule, when it has returned. *)
Definition good_clip_doc : Recording.t :=
  Recording.mk 7 "a.mp4" "a.mp4" "video/mp4" 3 None (Some "hello world") 1700000000000.

Definition good_clip_run : Run :=
  mkRun clip_a all_fine (Returned "000000000000000000000007" "hello world")
    [ InsertOne good_clip_doc;
      Unlink "/app/src/uploads/temp-1700000000000.mp4";
      Unlink "/app/src/uploads/audio-1700000000000.mp3";
      Unlink "/app/src/uploads/thumbnail-1700000000000.jpg" ].

(** ** More of the API: replies of the routes *)

(** What a route sends back: [res.status(code).json(...)] or [send()]. *)
Inductive Body :=
| recording_json (doc : Recording.t)
| recordings_json (docs : list Recording.t)
| result_json (id transcription : string)
| error_json (e : Error)
| recording_not_found
| no_content.

Record Reply := mkReply {
  status : N;
  body : Body;
}.

(** The global error handler of [index.ts], reached through [next(error)]. *)
Definition errorHandler (err : Error) : Reply := mkReply 500 (error_json err).

(** How [router.post('/upload', ...)] answers once [processVideo] has settled. *)
Definition upload_reply (r : Run) : option Reply :=
  match pc r with
  | Returned id transcription => Some (mkReply 201 (result_json id transcription))
  | Thrown e => Some (errorHandler e)
  | _ => None
  end.

(** [router.get('/recordings', ...)]. *)
Definition get_recordings_route (picks : list nat) (connect_ok find_ok : bool) (s : St)
  : St * Reply :=
  match getRecordings picks connect_ok find_ok s with
  | (s', Ok recordings) => (s', mkReply 200 (recordings_json recordings))
  | (s', Err e) => (s', errorHandler e)
  end.

(** [router.get('/:id', ...)]. *)
Definition get_id_route (connect_ok findOne_ok : bool) (id : string) (s : St) : St * Reply :=
  match getRecording connect_ok findOne_ok id s with
  | (s', Ok (Some recording)) => (s', mkReply 200 (recording_json recording))
  | (s', Ok None) => (s', mkReply 404 recording_not_found)
  | (s', Err e) => (s', errorHandler e)
  end.

(** [router.delete('/:id', ...)]. *)
Definition delete_id_route (connect_ok deleteOne_ok : bool) (id : string) (s : St)
  : St * Reply :=
  match deleteRecording connect_ok deleteOne_ok id s with
  | (s', Ok _) => (s', mkReply 204 no_content)
  | (s', Err e) => (s', errorHandler e)
  end.

(** ** apps/web: what [VideoRecorder.tsx] records and uploads *)

(** [s.includes(sub)]. *)
Fixpoint includes (s sub : string) : bool :=
  String.prefix sub s
  || match s with
     | "" => false
     | String _ s' => includes s' sub
     end.

Definition toLowerCase_char (c : ascii) : ascii :=
  let n := N_of_ascii c in
  if (65 <=? n) && (n <=? 90) then ascii_of_N (n + 32) else c.

Fixpoint toLowerCase (s : string) : string :=
  match s with
  | "" => ""
  | String c s' => String (toLowerCase_char c) (toLowerCase s')
  end.

(** [/w1|w2|.../i.test(s)] for plain words. *)
Definition test_i (words : list string) (s : string) : bool :=
  existsb (fun w => includes (toLowerCase s) (toLowerCase w)) words.

(** [checkMobile]: the value given to [setIsMobile]. *)
Definition checkMobile (userAgent : string) : bool :=
  test_i ["iPhone"; "iPad"; "iPod"; "Android"] userAgent.

Definition types : list string :=
  [ "video/mp4"; "video/webm;codecs=vp8,opus"; "video/webm" ].

(** [getSupportedMimeType]; [isTypeSupported] is [MediaRecorder]'s. *)
Definition getSupportedMimeType (isMobile : bool) (userAgent : string)
    (isTypeSupported : string -> bool) : string :=
  if isMobile && test_i ["iPhone"; "iPad"; "iPod"] userAgent then "video/mp4"
  else default "" (find isTypeSupported types).

(** [uploadVideo], up to the request: [mediaRecorderRef.current?.mimeType ||
    'video/mp4'], the type of the blob, the extension and the file name. *)
Definition recorder_mimeType (mimeType : option string) : string :=
  match mimeType with
  | Some m => if decide (m = "") then "video/mp4" else m
  | None => "video/mp4"
  end.

Definition blob_type (mimeType : string) : string :=
  if includes mimeType "mp4" then "video/mp4"
  else if includes mimeType "webm" then "video/webm"
  else "video/mp4".

Definition extension (mimeType : string) : string :=
  if includes mimeType "webm" then ".webm" else ".mp4".

(** The part named [video] of the form: nothing is sent when no chunk was
    recorded. *)
Definition uploadVideo_part (now : N) (mimeType : option string) (recordedChunks : list Buffer)
  : option File.t :=
  match recordedChunks with
  | [] => None
  | _ =>
      let mimeType := recorder_mimeType mimeType in
      let videoBlob := foldr String.append "" recordedChunks in
      Some (File.mk ("recording-" +:+ pretty now +:+ extension mimeType)
              (blob_type mimeType) (N.of_nat (String.length videoBlob)) videoBlob)
  end.

(** ** Measures and invariants of the event loop *)

(** The [await]s a call still has before it settles. *)
Definition awaits_left (c : Pc) : nat :=
  match c with
  | Start => 7
  | AwaitWriteFile _ => 6
  | AwaitGenerateThumbnail _ => 5
  | AwaitExtractAudio _ => 4
  | AwaitTranscribeAudio _ => 3
  | AwaitConnect _ _ => 2
  | AwaitInsertOne _ _ _ => 1
  | Returned _ _ | Thrown _ => 0
  end.

Definition is_resume (i : nat) (a : Action) : bool :=
  match a with
  | Resume j => bool_decide (j = i)
  | _ => false
  end.

(** How often the schedule resumes call [i]. *)
Definition resumptions (i : nat) (sched : list Action) : nat :=
  length (List.filter (is_resume i) sched).

(** No file of the directory is dated after the clock. *)
Definition dated (w : World) : Prop :=
  map_Forall (fun _ (entry : Buffer * N) => entry.2 <= clock w) (files w).

(** No other request: time passes, the timer fires, calls are resumed. *)
Definition calm (a : Action) : bool :=
  match a with
  | Tick _ | Resume _ | Sweep => true
  | PostUpload _ _ | DeleteId _ _ _ => false
  end.

(** Every stage of the request answers, the transcript being [text]. *)
Definition answers (o : Oracle) (text : string) : Prop :=
  writeFile_ok o = true /\ is_Some (screenshots_out o) /\ is_Some (toFormat_out o)
  /\ transcription_text o = Some text /\ connect_ok o = true /\ insertOne_ok o = true.

(** The files are there, written at [t0] or later. *)
Definition on_disk_since (t0 : N) (w : World) (paths : list string) : Prop :=
  Forall (fun path => exists data mtime, files w !! path = Some (data, mtime) /\ t0 <= mtime)
    paths.

(** A call that arrived in the world [w0], runs alone and is answered at every
    stage: where it stands, what is on disk and what is stored. *)
Definition fine_inv (w0 : World) (text : string) (w : World) (r : Run) : Prop :=
  clock w0 <= clock w /\
  match pc r with
  | Start => recordings w = recordings w0 /\ oid_supply w = oid_supply w0
  | AwaitWriteFile p =>
      distinct p /\ recordings w = recordings w0 /\ oid_supply w = oid_supply w0
  | AwaitGenerateThumbnail p =>
      distinct p /\ on_disk_since (clock w0) w [tempVideoPath p]
      /\ recordings w = recordings w0 /\ oid_supply w = oid_supply w0
  | AwaitExtractAudio p =>
      distinct p /\ on_disk_since (clock w0) w [tempVideoPath p; thumbnailPath p]
      /\ recordings w = recordings w0 /\ oid_supply w = oid_supply w0
  | AwaitTranscribeAudio p =>
      distinct p
      /\ on_disk_since (clock w0) w [tempVideoPath p; thumbnailPath p; audioPath p]
      /\ recordings w = recordings w0 /\ oid_supply w = oid_supply w0
  | AwaitConnect p t =>
      distinct p
      /\ on_disk_since (clock w0) w [tempVideoPath p; thumbnailPath p; audioPath p]
      /\ t = text /\ recordings w = recordings w0 /\ oid_supply w = oid_supply w0
  | AwaitInsertOne p t doc =>
      distinct p
      /\ on_disk_since (clock w0) w [tempVideoPath p; thumbnailPath p; audioPath p]
      /\ t = text /\ Recording._id doc = oid_supply w0 /\ recordings w = recordings w0
  | Returned id t =>
      t = text /\ id = ObjectId_toString (oid_supply w0)
      /\ exists doc, inserts (trace r) = [doc] /\ Recording._id doc = oid_supply w0
           /\ recordings w = recordings w0 ++ [doc]
           /\ Forall (fun path => files w !! path = None) (unlinks (trace r))
  | Thrown _ => False
  end.

(** The second upload of [same_millisecond], when it has arrived. *)
Definition clip_b_arrived : Run :=
  mkRun clip_b all_fine
    (AwaitWriteFile (tempPaths "/app/src/uploads" 1700000000000 1700000000000 1700000000000))
    [].

(** Six resumptions of the first call, while time passes and the cleanup
    timer fires. *)
Definition resumed_in_time : list Action :=
  [ Resume 0; Tick 1000; Sweep; Resume 0; Resume 0; Tick 2000; Resume 0; Sweep; Resume 0;
    Resume 0 ]%nat.

(** The name [processVideo] gives the source file at the clock reading [t1]. *)
Definition temp_name (dir : string) (t1 : N) : string :=
  path_join dir ("temp-" +:+ pretty t1 +:+ ".mp4").

(** The upload's bytes, as [processVideo] wrote them to [path]. *)
Definition kept (w : World) (path : string) (data : Buffer) : Prop :=
  exists mtime, files w !! path = Some (data, mtime).

(** A call that arrived in the world [w0] and runs alone: once the source file
    is written it stays where it is, whatever stage fails afterwards, and
    nothing is stored before the call returns. *)
Definition leak_inv (dir : string) (w0 : World) (w : World) (r : Run) : Prop :=
  match pc r with
  | Start => recordings w = recordings w0
  | AwaitWriteFile p =>
      (exists t1, tempVideoPath p = temp_name dir t1) /\ recordings w = recordings w0
  | AwaitGenerateThumbnail p | AwaitExtractAudio p | AwaitTranscribeAudio p
  | AwaitConnect p _ | AwaitInsertOne p _ _ =>
      (exists t1, tempVideoPath p = temp_name dir t1)
      /\ kept w (tempVideoPath p) (File.buffer (file r))
      /\ recordings w = recordings w0
  | Returned _ _ => True
  | Thrown e =>
      recordings w = recordings w0
      /\ ((exists t1, e = EIO (temp_name dir t1))
          \/ exists t1, kept w (temp_name dir t1) (File.buffer (file r)))
  end.

(** * Properties *)

(** ** Encodings *)

Example base64_padding :
  base64 "Man" = "TWFu" /\ base64 "Ma" = "TWE=" /\ base64 "M" = "TQ==" /\ base64 "" = "".
Proof. repeat split; reflexivity. Qed.

Example ObjectId_hex :
  ObjectId_of_string "507f1f77bcf86cd799439011" = Ok 24912482966938930280208240657
  /\ ObjectId_of_string "507F1F77BCF86CD799439011" = Ok 24912482966938930280208240657
  /\ ObjectId_toString 24912482966938930280208240657 = "507f1f77bcf86cd799439011"
  /\ ObjectId_of_string "507f1f77bcf86cd79943901" = Err BSONError
  /\ ObjectId_of_string "507f1f77bcf86cd79943901g" = Err BSONError.
Proof. vm_compute. repeat split; reflexivity. Qed.

(** ** Strings and paths *)

Lemma string_length_app (s t : string) :
  String.length (s +:+ t) = (String.length s + String.length t)%nat.
Proof. induction s as [|c s IH]; simpl; [done | by rewrite IH]. Qed.

Lemma string_app_inv_tail (s1 s2 t : string) : s1 +:+ t = s2 +:+ t -> s1 = s2.
Proof.
  revert s2. induction s1 as [|c s1 IH]; intros [|d s2] H; simpl in H.
  - done.
  - apply (f_equal String.length) in H. simpl in H. rewrite !string_length_app in H.
    simpl in H. lia.
  - apply (f_equal String.length) in H. simpl in H. rewrite !string_length_app in H.
    simpl in H. lia.
  - injection H as -> H. f_equal. by apply IH.
Qed.

Lemma path_join_inj (dir a b : string) : path_join dir a = path_join dir b -> a = b.
Proof.
  unfold path_join. intros H. apply String.app_inj in H. simpl in H. by injection H.
Qed.

Lemma numbered_inj (pre post : string) (a b : N) :
  pre +:+ pretty a +:+ post = pre +:+ pretty b +:+ post -> a = b.
Proof.
  intros H. apply String.app_inj in H. apply string_app_inv_tail in H.
  by apply (inj pretty) in H.
Qed.

(** ** Temporary file names *)

(** C5, as amended: the three names of a run are distinct from each other, and
    distinct from the three names of a run that read different clock values. *)
Theorem tempPaths_distinct (dir : string) (a1 a2 a3 b1 b2 b3 : N) :
  a1 <> b1 -> a2 <> b2 -> a3 <> b3 ->
  NoDup [ tempVideoPath (tempPaths dir a1 a2 a3);
          thumbnailPath (tempPaths dir a1 a2 a3);
          audioPath (tempPaths dir a1 a2 a3);
          tempVideoPath (tempPaths dir b1 b2 b3);
          thumbnailPath (tempPaths dir b1 b2 b3);
          audioPath (tempPaths dir b1 b2 b3) ].
Proof.
  intros H1 H2 H3. unfold tempPaths; simpl.
  repeat (apply NoDup_cons; split); [.. | apply NoDup_nil_2];
    rewrite ?not_elem_of_cons; repeat split; try apply not_elem_of_nil;
    intros H%path_join_inj; try discriminate H; apply numbered_inj in H; done.
Qed.

Lemma tempPaths_distinct_witness :
  1700000000000 <> 1700000000001
  /\ NoDup [ tempVideoPath (tempPaths "/app/src/uploads" 1700000000000 1700000000000 1700000000000);
            thumbnailPath (tempPaths "/app/src/uploads" 1700000000000 1700000000000 1700000000000);
            audioPath (tempPaths "/app/src/uploads" 1700000000000 1700000000000 1700000000000);
            tempVideoPath (tempPaths "/app/src/uploads" 1700000000001 1700000000001 1700000000001);
            thumbnailPath (tempPaths "/app/src/uploads" 1700000000001 1700000000001 1700000000001);
            audioPath (tempPaths "/app/src/uploads" 1700000000001 1700000000001 1700000000001) ].
Proof.
  split; [lia |].
  apply (tempPaths_distinct "/app/src/uploads" 1700000000000 1700000000000 1700000000000
           1700000000001 1700000000001 1700000000001); lia.
Defined.

(** C5, as stated, fails: two uploads accepted within the same millisecond
    are given the same three names. *)
Lemma same_millisecond_same_paths :
  map (fun r => paths_of (pc r))
      (runs (exec demo_env demo_service (boot demo_world) same_millisecond))
  = [ Some (mkPaths "/app/src/uploads/temp-1700000000000.mp4"
                    "/app/src/uploads/thumbnail-1700000000000.jpg"
                    "/app/src/uploads/audio-1700000000000.mp3");
      Some (mkPaths "/app/src/uploads/temp-1700000000000.mp4"
                    "/app/src/uploads/thumbnail-1700000000000.jpg"
                    "/app/src/uploads/audio-1700000000000.mp3") ].
Proof. vm_compute. reflexivity. Qed.

(** ** One call of [processVideo] *)

Ltac run_M H :=
  cbv [resume processVideo writeFileAsync generateThumbnail extractAudio
       transcribeAudio exists_file put_file sweep readFileSync_base64 unlinkSync
       connectToDatabase new_ObjectId new_ObjectId_of insertOne findOne deleteOne
       find_sort_toArray getRecordings getRecording deleteRecording
       Date_now elapse throw mbind mret M_bind M_ret
       file oracle pc trace fst snd] in H.

Ltac destruct_inner x :=
  lazymatch x with
  | context [match ?y with _ => _ end] => destruct_inner y
  | _ => destruct x eqn:?
  end.

Ltac split_M H :=
  repeat (match type of H with
          | context [match ?x with _ => _ end] => destruct_inner x
          end; cbv beta iota in H).

Arguments resume : simpl never.

(** [upload.single('video')] and the route on a request of at most one file
    part, in the field [video]. *)
Lemma upload_single_eq env part :
  upload_single env part
  = match part with
    | None => Ok None
    | Some file =>
        match fileFilter file with
        | Err e => Err e
        | Ok _ =>
            if limits_fileSize env <=? File.size file then Err LIMIT_FILE_SIZE
            else Ok (Some file)
        end
    end.
Proof.
  destruct part as [file|]; [|done]. unfold upload_single, upload_single_parts. simpl.
  destruct (fileFilter file); [|done]. by destruct (limits_fileSize env <=? File.size file).
Qed.

Lemma post_upload_eq env this part o s :
  post_upload env this part o s
  = match upload_single env part with
    | Err e => (s, Some (Status 500 e))
    | Ok None => (s, Some (Status 400 NoVideoFileUploaded))
    | Ok (Some file) =>
        if bool_decide (File.mimetype file ∈
             [ "video/mp4"; "video/x-m4v"; "video/x-msvideo"; "video/x-flv";
               "video/x-matroska"; "video/webm" ])
        then
          let '(w, r) := resume this (world s) (mkRun file o Start []) in
          (mkSystem w (runs s ++ [r]), None)
        else (s, Some (Status 400 InvalidFileType))
    end.
Proof. reflexivity. Qed.

Lemma fresh_run_inv (f : File.t) (o : Oracle) : run_inv (mkRun f o Start []).
Proof. done. Qed.

Lemma resume_inv this w r w' r' :
  resume this w r = (w', r') -> run_inv r ->
  run_inv r' /\ file r' = file r /\ oracle r' = oracle r.
Proof.
  destruct r as [f o c tr]. intros H Hinv.
  destruct c; unfold run_inv in Hinv; simpl in Hinv; run_M H; split_M H;
    destruct_and?; simplify_eq;
    (split; [|done]); unfold run_inv; simpl; try done.
  - by eexists _, _.
  - by eexists _, _, [_; _].
  - by eexists _, _, [_].
  - by eexists _, _, [].
Qed.

(** The store changes only when a pending [insertOne] completes, by the
    document that was pending, whose [_id] was not in the store. *)
Lemma resume_recordings this w r w' r' :
  resume this w r = (w', r') ->
  recordings w' = recordings w
  \/ exists p t doc, pc r = AwaitInsertOne p t doc
       /\ recordings w' = recordings w ++ [doc]
       /\ existsb (has_id (Recording._id doc)) (recordings w) = false.
Proof.
  destruct r as [f o c tr]. intros H.
  destruct c; run_M H; split_M H; simplify_eq; simpl; eauto 10.
Qed.

Lemma run_inv_inserts r doc :
  run_inv r -> InsertOne doc ∈ trace r -> exists t, built_from (file r) t doc.
Proof.
  unfold run_inv. intros Hinv Hin.
  destruct (pc r) as [| | | | | | | |e]; try (rewrite Hinv in Hin; by apply elem_of_nil in Hin).
  - destruct Hinv as [Hinv _]. rewrite Hinv in Hin. by apply elem_of_nil in Hin.
  - destruct Hinv as (p & doc' & Hdoc & _ & Htr). rewrite Htr in Hin.
    rewrite !elem_of_cons in Hin. rewrite elem_of_nil in Hin.
    destruct Hin as [?|[?|[?|[?|[]]]]]; simplify_eq. eauto.
  - destruct e as [| | | | | |[] path| | | | | |];
      try (rewrite Hinv in Hin; by apply elem_of_nil in Hin).
    destruct Hinv as (t & doc' & us & Hdoc & Htr). rewrite Htr in Hin.
    apply elem_of_cons in Hin as [?|Hin]; simplify_eq; [eauto|].
    apply list_elem_of_fmap in Hin as (? & ? & ?). done.
Qed.

(** ** The event loop *)

Lemma act_runs_inv env this s a :
  Forall run_inv (runs s) -> Forall run_inv (runs (act env this s a)).
Proof.
  intros Hs. destruct a as [ms|part o|c d id| |i]; try done.
  - unfold act. rewrite post_upload_eq. destruct (upload_single env part) as [[f|]|]; [|done|done].
    case_bool_decide; [|done].
    destruct (resume this (world s) (mkRun f o Start [])) as [w r'] eqn:Hr. simpl.
    apply Forall_app. split; [done|]. apply Forall_singleton.
    by apply (resume_inv _ _ _ _ _ Hr), fresh_run_inv.
  - unfold act. destruct (runs s !! i) as [r|] eqn:Hi; [|done].
    destruct (resume this (world s) r) as [w r'] eqn:Hr. simpl.
    apply Forall_insert; [done|].
    apply (resume_inv _ _ _ _ _ Hr). by eapply Forall_lookup_1.
Qed.

Lemma exec_runs_inv env this s sched :
  Forall run_inv (runs s) -> Forall run_inv (runs (exec env this s sched)).
Proof.
  revert s. induction sched as [|a sched IH]; intros s Hs; simpl; [done|].
  by apply IH, act_runs_inv.
Qed.

Lemma reachable_run_inv env this w sched i r :
  runs (exec env this (boot w) sched) !! i = Some r -> run_inv r.
Proof.
  intros Hi. eapply Forall_lookup_1; [|done]. apply exec_runs_inv. constructor.
Qed.

(** *** The store *)

Lemma remove_first_sublist oid docs : remove_first oid docs `sublist_of` docs.
Proof.
  induction docs as [|d docs IH]; simpl; [done|].
  destruct (has_id oid d); [by apply sublist_cons | by apply sublist_skip].
Qed.

Lemma deleteRecording_recordings c d id w tr :
  recordings (deleteRecording c d id (w, tr)).1.1 `sublist_of` recordings w.
Proof.
  destruct (deleteRecording c d id (w, tr)) as [[w' tr'] res] eqn:H.
  run_M H; split_M H; simplify_eq; simpl; try reflexivity; apply remove_first_sublist.
Qed.

Lemma existsb_has_id_false oid docs :
  existsb (has_id oid) docs = false -> oid ∉ (Recording._id <$> docs).
Proof.
  induction docs as [|d docs IH]; simpl; [intros _; apply not_elem_of_nil|].
  unfold has_id at 1. case_bool_decide as Hd; [done|]. simpl. intros Hex.
  apply not_elem_of_cons. split; [done | by apply IH].
Qed.

Section store.
Context (env : ProcessEnv) (this : VideoService).
Context (P : Recording.t -> Prop).
Context (P_built : forall f t doc, built_from f t doc -> P doc).

Lemma act_store s a :
  Forall run_inv (runs s) -> Forall P (recordings (world s)) ->
  Forall P (recordings (world (act env this s a))).
Proof using P_built.
  intros Hruns Hs. destruct a as [ms|part o|c d id| |i]; try done.
  - unfold act. rewrite post_upload_eq. destruct (upload_single env part) as [[f|]|]; [|done|done].
    case_bool_decide; [|done].
    destruct (resume this (world s) (mkRun f o Start [])) as [w r'] eqn:Hr. simpl.
    destruct (resume_recordings _ _ _ _ _ Hr) as [->|(p & t & doc & ? & _)]; done.
  - simpl. rewrite Forall_forall in Hs |- *. intros doc Hdoc. apply Hs.
    eapply elem_of_sublist; [done|]. apply deleteRecording_recordings.
  - unfold act. destruct (runs s !! i) as [r|] eqn:Hi; [|done].
    destruct (resume this (world s) r) as [w r'] eqn:Hr. simpl.
    destruct (resume_recordings _ _ _ _ _ Hr) as [->|(p & t & doc & Hpc & -> & _)]; [done|].
    apply Forall_app. split; [done|]. apply Forall_singleton.
    pose proof (Forall_lookup_1 _ _ _ _ Hruns Hi) as Hinv.
    unfold run_inv in Hinv. rewrite Hpc in Hinv. destruct Hinv as [_ Hdoc]. eauto.
Qed.

Lemma exec_store s sched :
  Forall run_inv (runs s) -> Forall P (recordings (world s)) ->
  Forall P (recordings (world (exec env this s sched))).
Proof using P_built.
  revert s. induction sched as [|a sched IH]; intros s Hruns Hs; simpl; [done|].
  apply IH; [by apply act_runs_inv | by apply act_store].
Qed.
End store.

Lemma act_unique_ids env this s a :
  unique_ids (recordings (world s)) -> unique_ids (recordings (world (act env this s a))).
Proof.
  unfold unique_ids. intros Hs. destruct a as [ms|part o|c d id| |i]; try done.
  - unfold act. rewrite post_upload_eq. destruct (upload_single env part) as [[f|]|]; [|done|done].
    case_bool_decide; [|done].
    destruct (resume this (world s) (mkRun f o Start [])) as [w r'] eqn:Hr. simpl.
    destruct (resume_recordings _ _ _ _ _ Hr) as [->|(p & t & doc & ? & _)]; done.
  - simpl. eapply sublist_NoDup; [done|]. apply fmap_sublist, deleteRecording_recordings.
  - unfold act. destruct (runs s !! i) as [r|] eqn:Hi; [|done].
    destruct (resume this (world s) r) as [w r'] eqn:Hr. simpl.
    destruct (resume_recordings _ _ _ _ _ Hr) as [->|(p & t & doc & Hpc & -> & Hnew)]; [done|].
    rewrite fmap_app. apply NoDup_app. split_and!; [done| |apply NoDup_singleton].
    intros x Hx Hx'. apply list_elem_of_singleton in Hx'. subst x.
    by apply existsb_has_id_false in Hnew.
Qed.

(** The [_id]s of the store stay distinct. *)
Lemma exec_unique_ids env this s sched :
  unique_ids (recordings (world s)) ->
  unique_ids (recordings (world (exec env this s sched))).
Proof.
  revert s. induction sched as [|a sched IH]; intros s Hs; simpl; [done|].
  by apply IH, act_unique_ids.
Qed.

(** ** Inserts and cleanup of a run *)

(** A call that failed in one of its stages (not in the cleanup itself) has
    removed none of its temporary files. *)
Lemma failed_run_unlinks_nothing env this w sched i r e :
  runs (exec env this (boot w) sched) !! i = Some r ->
  pc r = Thrown e -> raised_by_cleanup e = false -> unlinks (trace r) = [].
Proof.
  intros Hi Hpc He. pose proof (reachable_run_inv _ _ _ _ _ _ Hi) as Hinv.
  unfold run_inv in Hinv. rewrite Hpc in Hinv.
  destruct e as [| | | | | |[] path| | | | | |]; try discriminate He; by rewrite Hinv.
Qed.

(** C1 fails on the code: an upload whose audio extraction fails.  The call
    ends in the [catch] block with ffmpeg's error, having unlinked nothing; the
    source file and the snapshot stay in the uploads directory. *)
Theorem failed_run_leaves_files :
  let s := exec demo_env demo_service (boot demo_world) silent_clip in
  (pc <$> runs s !! 0%nat) = Some (Thrown (FfmpegError job_toFormat_mp3))
  /\ (unlinks ∘ trace <$> runs s !! 0%nat) = Some []
  /\ files (world s) !! "/app/src/uploads/temp-1700000000000.mp4"
     = Some ("abc", 1700000000000)
  /\ files (world s) !! "/app/src/uploads/thumbnail-1700000000000.jpg"
     = Some ("JPG", 1700000000000)
  /\ recordings (world s) = [].
Proof. vm_compute. repeat split; reflexivity. Qed.

(** The files left behind stay until the cleanup timer finds them more than
    an hour old. *)
Example leftovers_until_swept :
  files (world (exec demo_env demo_service (boot demo_world)
                  (silent_clip ++ [Tick 3600000; Sweep])))
    !! "/app/src/uploads/temp-1700000000000.mp4" = Some ("abc", 1700000000000)
  /\ files (world (exec demo_env demo_service (boot demo_world)
                     (silent_clip ++ [Tick 3600001; Sweep])))
       !! "/app/src/uploads/temp-1700000000000.mp4" = None.
Proof. vm_compute. split; reflexivity. Qed.

(** No document built by [processVideo] carries a snapshot. *)
Lemma inserted_without_snapshot env this w sched i r doc :
  runs (exec env this (boot w) sched) !! i = Some r ->
  InsertOne doc ∈ trace r -> Recording.snapshot doc = None.
Proof.
  intros Hi Hdoc. pose proof (reachable_run_inv _ _ _ _ _ _ Hi) as Hinv.
  destruct (run_inv_inserts _ _ Hinv Hdoc) as (t & Hb). apply Hb.
Qed.

(** C2 fails on the code: every stage answers, the snapshot is on disk when
    the document is built (its base64 text is read), and the call returns;
    yet the stored document has no [snapshot]. *)
Theorem snapshot_not_persisted :
  let before := exec demo_env demo_service (boot demo_world) good_clip_before_insert in
  let s := exec demo_env demo_service (boot demo_world) good_clip in
  files (world before) !! "/app/src/uploads/thumbnail-1700000000000.jpg"
  = Some ("JPG", 1700000000000)
  /\ base64 "JPG" = "SlBH"
  /\ (pc <$> runs s !! 0%nat) = Some (Returned "000000000000000000000007" "hello world")
  /\ recordings (world s) = [good_clip_doc]
  /\ Recording.snapshot good_clip_doc = None.
Proof. vm_compute. repeat split; reflexivity. Qed.

(** C3, as amended: a call that returned did one insert; a call that ended
    with an error of one of its stages did none. *)
Theorem inserts_per_run env this w sched i r :
  runs (exec env this (boot w) sched) !! i = Some r ->
  (forall id t, pc r = Returned id t -> length (inserts (trace r)) = 1%nat)
  /\ (forall e, pc r = Thrown e -> raised_by_cleanup e = false -> inserts (trace r) = []).
Proof.
  intros Hi. pose proof (reachable_run_inv _ _ _ _ _ _ Hi) as Hinv.
  unfold run_inv in Hinv. split.
  - intros id t Hpc. rewrite Hpc in Hinv. destruct Hinv as (p & doc & _ & _ & ->). done.
  - intros e Hpc He. rewrite Hpc in Hinv.
    destruct e as [| | | | | |[] path| | | | | |]; try discriminate He; by rewrite Hinv.
Qed.

Lemma inserts_per_run_witness :
  runs (exec demo_env demo_service (boot demo_world) good_clip) !! 0%nat = Some good_clip_run
  /\ (forall id t, pc good_clip_run = Returned id t ->
        length (inserts (trace good_clip_run)) = 1%nat)
  /\ (forall e, pc good_clip_run = Thrown e -> raised_by_cleanup e = false ->
        inserts (trace good_clip_run) = []).
Proof.
  split; [vm_compute; reflexivity |].
  apply (inserts_per_run demo_env demo_service demo_world good_clip 0 good_clip_run).
  vm_compute; reflexivity.
Defined.

(** C3, as stated, fails: of two uploads accepted within the same millisecond
    and resumed in turn, the second inserts its document and then ends with an
    error, because the first has already removed the files they share. *)
Lemma error_after_insert :
  let s := exec demo_env demo_service (boot demo_world) (same_millisecond ++ in_turn) in
  (pc <$> runs s !! 1%nat)
    = Some (Thrown (ENOENT sys_unlink "/app/src/uploads/temp-1700000000000.mp4"))
  /\ (length ∘ inserts ∘ trace <$> runs s !! 1%nat) = Some 1%nat
  /\ (Recording.originalName <$> recordings (world s)) = ["a.mp4"; "b.webm"].
Proof. vm_compute. repeat split; reflexivity. Qed.

(** *** A call that runs alone *)

Lemma tempPaths_NoDup dir t1 t2 t3 : distinct (tempPaths dir t1 t2 t3).
Proof.
  unfold distinct, tempPaths; simpl.
  repeat (apply NoDup_cons; split); [.. | apply NoDup_nil_2];
    rewrite ?not_elem_of_cons; repeat split; try apply not_elem_of_nil;
    intros H%path_join_inj; discriminate H.
Qed.

Lemma distinct_ne p :
  distinct p ->
  tempVideoPath p <> thumbnailPath p /\ tempVideoPath p <> audioPath p
  /\ thumbnailPath p <> audioPath p.
Proof.
  unfold distinct. rewrite !NoDup_cons, !not_elem_of_cons. tauto.
Qed.

Lemma on_disk_put w path data paths :
  on_disk w paths ->
  on_disk (mkWorld (clock w) (<[path := data]> (files w)) (recordings w) (cachedDb w)
             (oid_supply w)) (paths ++ [path]).
Proof.
  unfold on_disk. intros H. apply Forall_app. split.
  - eapply Forall_impl; [done|]. simpl. intros p Hp. apply lookup_insert_is_Some'. by right.
  - apply Forall_singleton. simpl. apply lookup_insert_is_Some'. by left.
Qed.

Lemma absent_after_unlinks (m : gmap string (Buffer * N)) a b c :
  Forall (fun path => delete c (delete b (delete a m)) !! path = None) [a; b; c].
Proof. repeat constructor; rewrite !lookup_delete_None; tauto. Qed.

Ltac files_contra :=
  repeat match goal with
         | H : distinct _ |- _ => apply distinct_ne in H as (? & ? & ?)
         | H : on_disk _ _ |- _ =>
             unfold on_disk in H; rewrite ?Forall_cons in H; destruct_and!
         end;
  repeat match goal with
         | H : delete _ _ !! _ = None |- _ => rewrite lookup_delete_ne in H by done
         end;
  match goal with
  | H : ?m !! ?k = None, H' : is_Some (?m !! ?k) |- _ => rewrite H in H'; by destruct H'
  end.

Lemma resume_lone this w r w' r' :
  resume this w r = (w', r') -> run_inv r -> lone_inv w r -> lone_inv w' r'.
Proof.
  destruct r as [f o c tr]. intros H Hrun Hinv.
  destruct c; unfold lone_inv in Hinv; unfold run_inv in Hrun; simpl in Hinv, Hrun;
    run_M H; split_M H;
    destruct_and?; simplify_eq; unfold lone_inv; simpl in *; try done;
    try files_contra.
  - apply tempPaths_NoDup.
  - split; [done|]. apply (on_disk_put _ _ _ []). constructor.
  - split; [done|]. by apply (on_disk_put _ _ _ [_]).
  - split; [done|]. by apply (on_disk_put _ _ _ [_; _]).
  - apply absent_after_unlinks.
Qed.

Lemma lone_inv_files w w' r : files w' = files w -> lone_inv w r -> lone_inv w' r.
Proof. unfold lone_inv, on_disk. by intros ->. Qed.

Lemma exec_quiet_none env this s sched :
  forallb quiet sched = true -> runs s = [] -> runs (exec env this s sched) = [].
Proof.
  revert s. induction sched as [|a sched IH]; intros s Hq Hs; simpl in *; [done|].
  apply andb_prop in Hq as [Ha Hq]. apply IH; [done|].
  destruct a as [ms|part o|c d id| |i]; try done. simpl. by rewrite Hs.
Qed.

Lemma exec_quiet_lone env this s sched r :
  forallb quiet sched = true ->
  runs s = [r] -> run_inv r -> lone_inv (world s) r ->
  exists r', runs (exec env this s sched) = [r'] /\ run_inv r'
             /\ lone_inv (world (exec env this s sched)) r'.
Proof.
  revert s r. induction sched as [|a sched IH]; intros s r Hq Hs Hrun Hlone; simpl in *;
    [by eauto|].
  apply andb_prop in Hq as [Ha Hq].
  destruct a as [ms|part o|c d id| |i]; try done.
  - apply (IH _ r); [done..|]. by eapply lone_inv_files.
  - unfold act. rewrite Hs. destruct i as [|i]; simpl; [|by apply (IH _ r)].
    destruct (resume this (world s) r) as [w r'] eqn:Hr.
    apply (IH _ r'); [done..| |].
    + by apply (resume_inv _ _ _ _ _ Hr).
    + by apply (resume_lone _ _ _ _ _ Hr).
Qed.

Lemma post_upload_lone env this w part o :
  let s := act env this (boot w) (PostUpload part o) in
  runs s = [] \/ exists r, runs s = [r] /\ run_inv r /\ lone_inv (world s) r.
Proof.
  unfold act. rewrite post_upload_eq. destruct (upload_single env part) as [[f|]|]; [|by left..].
  case_bool_decide; [|by left].
  destruct (resume this (world (boot w)) (mkRun f o Start [])) as [w1 r1] eqn:Hr1.
  right. exists r1. split_and!; [done| |].
  - by apply (resume_inv _ _ _ _ _ Hr1), fresh_run_inv.
  - by apply (resume_lone _ _ _ _ _ Hr1); [apply fresh_run_inv|].
Qed.

(** On its own, a call never fails in its cleanup, and when it returns it has
    unlinked its three files, each once, and none of them is left. *)
Theorem lone_run_cleans_up env this w f o sched r :
  forallb quiet sched = true ->
  runs (exec env this (boot w) (PostUpload (Some f) o :: sched)) !! 0%nat = Some r ->
  (forall e, pc r = Thrown e -> raised_by_cleanup e = false)
  /\ (forall id t, pc r = Returned id t ->
        exists p, unlinks (trace r) = [tempVideoPath p; audioPath p; thumbnailPath p]
          /\ Forall (fun path =>
                       files (world (exec env this (boot w) (PostUpload (Some f) o :: sched)))
                       !! path = None) (unlinks (trace r))).
Proof.
  intros Hq.
  change (exec env this (boot w) (PostUpload (Some f) o :: sched))
    with (exec env this (act env this (boot w) (PostUpload (Some f) o)) sched).
  destruct (post_upload_lone env this w (Some f) o) as [Hnone|(r1 & Hruns1 & Hrun1 & Hlone1)].
  { by rewrite exec_quiet_none. }
  destruct (exec_quiet_lone env this _ sched r1 Hq Hruns1 Hrun1 Hlone1)
    as (r' & Hruns & Hrun & Hlone).
  rewrite Hruns. intros [= <-]. unfold lone_inv in Hlone. unfold run_inv in Hrun.
  split.
  - intros e Hpc. by rewrite Hpc in Hlone.
  - intros id t Hpc. rewrite Hpc in Hlone, Hrun.
    destruct Hrun as (p & doc & _ & _ & Htr). exists p. split; [by rewrite Htr | done].
Qed.

(** ** What is stored *)

(** C9: the document a call inserts has the upload's original name in both
    [filename] and [originalName]. *)
Theorem filename_is_originalName env this w sched i r k doc :
  runs (exec env this (boot w) sched) !! i = Some r ->
  trace r !! k = Some (InsertOne doc) ->
  Recording.filename doc = File.originalname (file r)
  /\ Recording.originalName doc = File.originalname (file r)
  /\ Recording.filename doc = Recording.originalName doc.
Proof.
  intros Hi Hk. pose proof (reachable_run_inv _ _ _ _ _ _ Hi) as Hinv.
  apply list_elem_of_lookup_2 in Hk.
  destruct (run_inv_inserts _ _ Hinv Hk) as (t & Hf & Ho & _).
  by rewrite Hf, Ho.
Qed.

Lemma filename_is_originalName_witness :
  runs (exec demo_env demo_service (boot demo_world) good_clip) !! 0%nat = Some good_clip_run
  /\ trace good_clip_run !! 0%nat = Some (InsertOne good_clip_doc)
  /\ Recording.filename good_clip_doc = File.originalname (file good_clip_run)
  /\ Recording.originalName good_clip_doc = File.originalname (file good_clip_run)
  /\ Recording.filename good_clip_doc = Recording.originalName good_clip_doc.
Proof.
  split; [vm_compute; reflexivity |]. split; [reflexivity |].
  apply (filename_is_originalName demo_env demo_service demo_world good_clip 0 good_clip_run
           0 good_clip_doc); [vm_compute; reflexivity | reflexivity].
Defined.

(** C10: whatever requests are served and however they interleave, a
    document of the store that was not there at start-up has a transcript. *)
Theorem stored_has_transcription env this w sched k doc :
  recordings (world (exec env this (boot w) sched)) !! k = Some doc ->
  doc ∈ recordings w \/ is_Some (Recording.transcription doc).
Proof.
  intros Hk. apply list_elem_of_lookup_2 in Hk. revert doc Hk. apply Forall_forall.
  apply exec_store.
  - intros f t doc (_ & _ & _ & _ & _ & Ht). right. by rewrite Ht.
  - constructor.
  - apply Forall_forall. intros doc Hdoc. by left.
Qed.

Lemma stored_has_transcription_witness :
  recordings (world (exec demo_env demo_service (boot demo_world) good_clip)) !! 0%nat
  = Some good_clip_doc
  /\ (good_clip_doc ∈ recordings demo_world
      \/ is_Some (Recording.transcription good_clip_doc)).
Proof.
  split; [vm_compute; reflexivity |].
  apply (stored_has_transcription demo_env demo_service demo_world good_clip 0 good_clip_doc).
  vm_compute; reflexivity.
Defined.

(** ** Validation of an upload *)

(** C4: an upload whose type is not one of the six allowed, or whose size
    exceeds [limits.fileSize] (100 MiB unless configured), is answered with
    the middleware's error; the system is left exactly as it was: no file is
    written, the store is untouched and [processVideo] is not called. *)
Theorem invalid_upload_rejected env this f o s :
  File.mimetype f ∉ allowedTypes \/ limits_fileSize env < File.size f ->
  (exists e, post_upload env this (Some f) o s = (s, Some (Status 500 e))
             /\ (e = InvalidFileType \/ e = LIMIT_FILE_SIZE))
  /\ limits_fileSize (mkEnv None) = 104857600
  /\ length allowedTypes = 6%nat.
Proof.
  intros H. split; [|done]. rewrite post_upload_eq, upload_single_eq. unfold fileFilter.
  case_bool_decide as Hty; [|by eauto].
  destruct H as [H|H]; [done|].
  assert ((limits_fileSize env <=? File.size f) = true) as -> by (apply N.leb_le; lia).
  eauto.
Qed.

Lemma invalid_upload_rejected_witness :
  (File.mimetype paper ∉ allowedTypes
   \/ limits_fileSize demo_env < File.size paper)
  /\ (exists e, post_upload demo_env demo_service (Some paper) all_fine (boot demo_world)
                = (boot demo_world, Some (Status 500 e))
                /\ (e = InvalidFileType \/ e = LIMIT_FILE_SIZE))
  /\ limits_fileSize (mkEnv None) = 104857600
  /\ length allowedTypes = 6%nat.
Proof.
  assert (Hty : File.mimetype paper ∉ allowedTypes)
    by (apply (proj1 (bool_decide_eq_false (File.mimetype paper ∈ allowedTypes)));
        vm_compute; reflexivity).
  split; [by left |].
  apply (invalid_upload_rejected demo_env demo_service paper all_fine (boot demo_world)).
  by left.
Defined.

Example oversized_upload_rejected :
  post_upload demo_env demo_service (Some huge) all_fine (boot demo_world)
  = (boot demo_world, Some (Status 500 LIMIT_FILE_SIZE)).
Proof. vm_compute. reflexivity. Qed.

(** ** The repository *)

Lemma find_has_id oid docs :
  match find (has_id oid) docs with
  | Some doc => doc ∈ docs /\ Recording._id doc = oid
  | None => forall doc, doc ∈ docs -> Recording._id doc <> oid
  end.
Proof.
  induction docs as [|d docs IH]; simpl.
  - intros doc Hdoc. by apply elem_of_nil in Hdoc.
  - unfold has_id at 1. case_bool_decide as Hd.
    + split; [apply list_elem_of_here | done].
    + destruct (find (has_id oid) docs) as [doc|].
      * destruct IH. split; [by apply list_elem_of_further | done].
      * intros doc [->|Hdoc]%elem_of_cons; [done | by apply IH].
Qed.

Lemma remove_first_absent oid docs :
  find (has_id oid) docs = None -> remove_first oid docs = docs.
Proof.
  induction docs as [|d docs IH]; simpl; [done|].
  destruct (has_id oid d); [done|]. intros H. by rewrite IH.
Qed.

Lemma find_remove_first oid docs :
  unique_ids docs -> find (has_id oid) (remove_first oid docs) = None.
Proof.
  unfold unique_ids. induction docs as [|d docs IH]; simpl; [done|].
  intros [Hd Hdocs]%NoDup_cons. destruct (has_id oid d) eqn:Hoid.
  - apply bool_decide_eq_true in Hoid. subst oid.
    pose proof (find_has_id (Recording._id d) docs) as Hfind.
    destruct (find _ docs) as [doc|]; [|done]. destruct Hfind as [Hin Hid].
    destruct Hd. rewrite <- Hid. by apply list_elem_of_fmap_2.
  - simpl. rewrite Hoid. by apply IH.
Qed.

Lemma getRecording_found w tr id oid :
  ObjectId_of_string id = Ok oid ->
  exists w', getRecording true true id (w, tr) = ((w', tr), Ok (find (has_id oid) (recordings w)))
             /\ recordings w' = recordings w.
Proof.
  intros Hid. destruct (getRecording true true id (w, tr)) as [[w' tr'] res] eqn:H.
  run_M H. rewrite Hid in H. split_M H; simplify_eq; eauto.
Qed.

Lemma deleteRecording_done w tr id oid :
  ObjectId_of_string id = Ok oid ->
  exists w', deleteRecording true true id (w, tr) = ((w', tr), Ok ())
             /\ recordings w' = remove_first oid (recordings w).
Proof.
  intros Hid. destruct (deleteRecording true true id (w, tr)) as [[w' tr'] res] eqn:H.
  run_M H. rewrite Hid in H. split_M H; simplify_eq; eauto.
Qed.

Lemma deleteRecording_malformed w tr id e :
  ObjectId_of_string id = Err e ->
  exists w', deleteRecording true true id (w, tr) = ((w', tr), Err BSONError)
             /\ recordings w' = recordings w.
Proof.
  intros Hid. assert (e = BSONError) as ->.
  { unfold ObjectId_of_string in Hid. repeat case_match; congruence. }
  destruct (deleteRecording true true id (w, tr)) as [[w' tr'] res] eqn:H.
  run_M H. rewrite Hid in H. split_M H; simplify_eq; eauto.
Qed.

(** C6, as amended: with the database answering, an identifier of 24
    hexadecimal characters is looked up by exact match of [_id] and yields the
    recording or [null]; any other identifier makes [getRecording] throw. *)
Theorem getRecording_by_id w tr id :
  match ObjectId_of_string id with
  | Ok oid =>
      exists w' res, getRecording true true id (w, tr) = ((w', tr), Ok res)
        /\ recordings w' = recordings w
        /\ match res with
           | Some doc => doc ∈ recordings w /\ Recording._id doc = oid
           | None => forall doc, doc ∈ recordings w -> Recording._id doc <> oid
           end
  | Err _ => (getRecording true true id (w, tr)).2 = Err BSONError
  end.
Proof.
  destruct (ObjectId_of_string id) as [oid|e] eqn:Hid.
  - destruct (getRecording_found w tr id oid Hid) as (w' & Hget & Hrec).
    exists w', (find (has_id oid) (recordings w)). split_and!; [done..|]. apply find_has_id.
  - assert (e = BSONError) as ->.
    { unfold ObjectId_of_string in Hid. repeat case_match; congruence. }
    destruct (getRecording true true id (w, tr)) as [[w' tr'] res] eqn:H.
    run_M H. rewrite Hid in H. split_M H; by simplify_eq.
Qed.

Lemma getRecording_by_id_witness :
  ObjectId_of_string "000000000000000000000001" = Ok 1
  /\ exists w' res,
       getRecording true true "000000000000000000000001" (two_docs, []) = ((w', []), Ok res)
       /\ recordings w' = recordings two_docs
       /\ match res with
          | Some doc => doc ∈ recordings two_docs /\ Recording._id doc = 1
          | None => forall doc, doc ∈ recordings two_docs -> Recording._id doc <> 1
          end.
Proof.
  split; [vm_compute; reflexivity |].
  exact (getRecording_by_id two_docs [] "000000000000000000000001").
Defined.

(** C6, as stated, fails: a malformed identifier is not answered "not
    found"; [new ObjectId(id)] throws. *)
Lemma getRecording_malformed_throws :
  (getRecording true true "abc" (two_docs, [])).2 = Err BSONError
  /\ (getRecording true true "not-a-valid-object-id!!!" (two_docs, [])).2 = Err BSONError
  /\ (getRecording true true "000000000000000000000009" (two_docs, [])).2 = Ok None.
Proof. vm_compute. repeat split; reflexivity. Qed.

(** C7, as amended: with the database answering and [_id]s distinct.  For an
    identifier of 24 hexadecimal characters, deleting succeeds, deleting again
    succeeds and changes nothing, the recording is absent after each, and
    deleting an identifier that is not stored changes nothing.  For every
    other identifier each of the two calls throws, and the store stays as it
    was. *)
Theorem deleteRecording_twice w id :
  unique_ids (recordings w) ->
  let once := deleteRecording true true id (w, []) in
  let twice := deleteRecording true true id once.1 in
  match ObjectId_of_string id with
  | Ok oid =>
      once.2 = Ok () /\ twice.2 = Ok ()
      /\ recordings twice.1.1 = recordings once.1.1
      /\ (getRecording true true id once.1).2 = Ok None
      /\ (getRecording true true id twice.1).2 = Ok None
      /\ (find (has_id oid) (recordings w) = None -> recordings once.1.1 = recordings w)
  | Err _ =>
      once.2 = Err BSONError /\ twice.2 = Err BSONError
      /\ recordings once.1.1 = recordings w /\ recordings twice.1.1 = recordings w
  end.
Proof.
  intros Huniq. destruct (ObjectId_of_string id) as [oid|e] eqn:Hid.
  - destruct (deleteRecording_done w [] id oid Hid) as (w1 & H1 & Hrec1).
    destruct (deleteRecording_done w1 [] id oid Hid) as (w2 & H2 & Hrec2).
    destruct (getRecording_found w1 [] id oid Hid) as (w1' & Hget1 & _).
    destruct (getRecording_found w2 [] id oid Hid) as (w2' & Hget2 & _).
    cbv zeta. rewrite H1. cbn [fst snd]. rewrite H2, Hget1. cbn [fst snd]. rewrite Hget2.
    cbn [fst snd].
    assert (Hgone : find (has_id oid) (recordings w1) = None)
      by (rewrite Hrec1; by apply find_remove_first).
    split_and!; try done.
    + rewrite Hrec2. by apply remove_first_absent.
    + by rewrite Hgone.
    + rewrite Hrec2, remove_first_absent, Hgone; done.
    + intros Habs. by rewrite Hrec1, remove_first_absent.
  - destruct (deleteRecording_malformed w [] id e Hid) as (w1 & H1 & Hrec1).
    destruct (deleteRecording_malformed w1 [] id e Hid) as (w2 & H2 & Hrec2).
    cbv zeta. rewrite H1. cbn [fst snd]. rewrite H2. cbn [fst snd].
    split_and!; congruence.
Qed.

Lemma deleteRecording_twice_witness :
  unique_ids (recordings two_docs)
  /\ let once := deleteRecording true true "000000000000000000000001" (two_docs, []) in
     let twice := deleteRecording true true "000000000000000000000001" once.1 in
     once.2 = Ok () /\ twice.2 = Ok ()
     /\ recordings twice.1.1 = recordings once.1.1
     /\ (getRecording true true "000000000000000000000001" once.1).2 = Ok None
     /\ (getRecording true true "000000000000000000000001" twice.1).2 = Ok None
     /\ (find (has_id 1) (recordings two_docs) = None ->
         recordings once.1.1 = recordings two_docs).
Proof.
  assert (Huniq : unique_ids (recordings two_docs))
    by (unfold unique_ids; apply (bool_decide_unpack _); vm_compute; exact I).
  split; [exact Huniq |].
  exact (deleteRecording_twice two_docs "000000000000000000000001" Huniq).
Defined.

(** C7, as stated, fails: deleting an identifier that names no recording is
    an error, the first time and the second, when the identifier is
    malformed. *)
Lemma deleteRecording_malformed_throws :
  let once := deleteRecording true true "abc" (two_docs, []) in
  let twice := deleteRecording true true "abc" once.1 in
  (ObjectId_toString ∘ Recording._id <$> recordings two_docs)
    = ["000000000000000000000001"; "000000000000000000000002"]
  /\ once.2 = Err BSONError /\ twice.2 = Err BSONError.
Proof. vm_compute. repeat split; reflexivity. Qed.

(** *** Listing *)

#[local] Instance createdAt_desc_trans : Transitive createdAt_desc.
Proof. unfold createdAt_desc. intros a b c. lia. Qed.

(** What the specification [{ createdAt: -1 }] asks of two neighbours. *)
Lemma sorts_before_createdAt_desc a b :
  sorts_before [(key_createdAt, (-1)%Z)] a b = true <-> createdAt_desc a b.
Proof.
  unfold createdAt_desc. simpl.
  destruct (N.compare_spec (Recording.createdAt a) (Recording.createdAt b));
    split; try done; lia.
Qed.

Lemma insert_by_Permutation before doc docs : insert_by before doc docs ≡ₚ doc :: docs.
Proof.
  induction docs as [|d docs IH]; simpl; [done|].
  destruct (before doc d); [done|]. by rewrite IH, Permutation_swap.
Qed.

Lemma sort_by_Permutation before docs : sort_by before docs ≡ₚ docs.
Proof.
  unfold sort_by. induction docs as [|d docs IH]; simpl; [done|].
  by rewrite insert_by_Permutation, IH.
Qed.

Lemma natural_order_Permutation picks docs : natural_order picks docs ≡ₚ docs.
Proof.
  unfold natural_order. revert docs. induction picks as [|k picks IH]; intros docs; simpl;
    [done|].
  rewrite IH. destruct (docs !! k) as [doc|] eqn:Hk; [|done].
  symmetry. by apply delete_Permutation.
Qed.

Lemma Sorted_insert_by (R : relation Recording.t) before doc docs :
  (forall a b, before a b = true -> R a b) -> (forall a b, before a b = false -> R b a) ->
  Sorted R docs -> Sorted R (insert_by before doc docs).
Proof.
  intros Hyes Hno. induction 1 as [|d docs Hdocs IH Hd]; simpl.
  - by repeat constructor.
  - destruct (before doc d) eqn:Hb.
    + constructor; [by constructor|]. constructor. by apply Hyes.
    + constructor; [done|]. destruct Hd as [|d' docs' Hd']; simpl.
      * constructor. by apply Hno.
      * destruct (before doc d'); constructor; [by apply Hno | done].
Qed.

Lemma Sorted_sort_by (R : relation Recording.t) before docs :
  (forall a b, before a b = true -> R a b) -> (forall a b, before a b = false -> R b a) ->
  Sorted R (sort_by before docs).
Proof.
  intros Hyes Hno. unfold sort_by. induction docs as [|d docs IH]; simpl; [constructor|].
  by apply Sorted_insert_by.
Qed.

Lemma getRecordings_answer picks w tr :
  exists w',
    getRecordings picks true true (w, tr)
    = ((w', tr),
       Ok (sort_by (sorts_before [(key_createdAt, (-1)%Z)])
             (natural_order picks (recordings w))))
    /\ recordings w' = recordings w.
Proof.
  destruct (getRecordings picks true true (w, tr)) as [[w' tr'] res] eqn:H.
  run_M H; split_M H; simplify_eq; by eauto.
Qed.

(** A list in strictly decreasing order of [createdAt] is the only
    most-recent-first arrangement of its elements. *)
Lemma most_recent_first_unique (l1 l2 : list Recording.t) :
  StronglySorted (flip createdAt_lt) l1 -> StronglySorted createdAt_desc l2 ->
  l1 ≡ₚ l2 -> l1 = l2.
Proof.
  revert l2. induction l1 as [|x l1 IH]; intros l2 H1 H2 Hperm.
  - symmetry. by apply Permutation_nil.
  - destruct l2 as [|y l2]; [symmetry in Hperm; by apply Permutation_nil_cons in Hperm|].
    apply StronglySorted_inv in H1 as [H1 Hx]. apply StronglySorted_inv in H2 as [H2 Hy].
    rewrite Forall_forall in Hx, Hy.
    assert (x = y) as ->.
    { assert (Hyin : y ∈ x :: l1) by (rewrite Hperm; apply list_elem_of_here).
      assert (Hxin : x ∈ y :: l2) by (rewrite <- Hperm; apply list_elem_of_here).
      apply elem_of_cons in Hyin as [->|Hyin]; [done|].
      apply elem_of_cons in Hxin as [->|Hxin]; [done|].
      apply Hx in Hyin. apply Hy in Hxin.
      unfold flip, createdAt_lt, createdAt_desc in *. lia. }
    f_equal. apply IH; [done..|]. by apply Permutation_cons_inv in Hperm.
Qed.

Lemma reverse_increasing (l : list Recording.t) :
  Sorted createdAt_lt l -> StronglySorted (flip createdAt_lt) (reverse l).
Proof.
  intros H. apply Sorted_StronglySorted in H; [|intros a b c; unfold createdAt_lt; lia].
  induction H as [|x l Hl IH Hx]; [constructor|].
  rewrite reverse_cons. apply StronglySorted_app_2; [|done|repeat constructor].
  intros a b Ha ->%list_elem_of_singleton. rewrite elem_of_reverse in Ha.
  rewrite Forall_forall in Hx. unfold flip. by apply Hx.
Qed.

(** C8, as amended: with the database answering, [getRecordings] returns all
    the stored recordings, most recent first, in whatever order the server
    came by them; when they were inserted with strictly increasing
    [createdAt], the list is the exact reverse of the insertion order.  The
    specification has no second key, so two recordings with the same
    [createdAt] are listed as the server came by them: in the order of
    insertion by one server, in the opposite order by another. *)
Theorem getRecordings_most_recent_first w tr :
  (forall picks, exists w' docs,
     getRecordings picks true true (w, tr) = ((w', tr), Ok docs)
     /\ recordings w' = recordings w
     /\ docs ≡ₚ recordings w
     /\ Sorted createdAt_desc docs
     /\ (Sorted createdAt_lt (recordings w) -> docs = reverse (recordings w)))
  /\ (forall a b, recordings w = [a; b] -> Recording.createdAt a = Recording.createdAt b ->
        (getRecordings [] true true (w, tr)).2 = Ok [a; b]
        /\ (getRecordings [1%nat] true true (w, tr)).2 = Ok [b; a]).
Proof.
  split.
  - intros picks. destruct (getRecordings_answer picks w tr) as (w' & Hget & Hrec).
    eexists w', _. split; [exact Hget|].
    assert (Hperm : sort_by (sorts_before [(key_createdAt, (-1)%Z)])
                      (natural_order picks (recordings w)) ≡ₚ recordings w)
      by (by rewrite sort_by_Permutation, natural_order_Permutation).
    assert (Hsorted : Sorted createdAt_desc
                        (sort_by (sorts_before [(key_createdAt, (-1)%Z)])
                           (natural_order picks (recordings w)))).
    { apply Sorted_sort_by.
      - intros a b. apply sorts_before_createdAt_desc.
      - intros a b Hab. unfold createdAt_desc.
        destruct (decide (Recording.createdAt a <= Recording.createdAt b)) as [|Hn]; [done|].
        assert (sorts_before [(key_createdAt, (-1)%Z)] a b = true); [|congruence].
        apply sorts_before_createdAt_desc. unfold createdAt_desc. lia. }
    split_and!; [done..|].
    intros Hinc. symmetry. apply most_recent_first_unique.
    + by apply reverse_increasing.
    + by apply Sorted_StronglySorted; [apply _|].
    + by rewrite reverse_Permutation, Hperm.
  - intros a b Hw Hab.
    destruct (getRecordings_answer [] w tr) as (w1 & -> & _).
    destruct (getRecordings_answer [1%nat] w tr) as (w2 & -> & _).
    rewrite Hw. simpl. rewrite Hab, !N.compare_refl. done.
Qed.

Lemma getRecordings_most_recent_first_witness :
  Sorted createdAt_lt (recordings increasing_docs)
  /\ exists w' docs,
       getRecordings [] true true (increasing_docs, []) = ((w', []), Ok docs)
       /\ recordings w' = recordings increasing_docs
       /\ docs ≡ₚ recordings increasing_docs
       /\ Sorted createdAt_desc docs
       /\ (Sorted createdAt_lt (recordings increasing_docs) ->
           docs = reverse (recordings increasing_docs)).
Proof.
  split.
  - repeat constructor.
  - exact (proj1 (getRecordings_most_recent_first increasing_docs []) []).
Defined.

(** C8, as stated, fails on the two recordings that the uploads of
    [same_millisecond] leave in the store.  They have the same [createdAt].
    A server that comes by them in insertion order lists them in that order,
    which is not the reverse of the insertion order although the timestamps
    never decrease; a server that comes by them in the opposite order lists
    them so, and the tie is not broken by insertion order. *)
Lemma ties_order_not_fixed :
  let w := world (exec demo_env demo_service (boot demo_world) (same_millisecond ++ in_turn)) in
  (Recording.originalName <$> recordings w) = ["a.mp4"; "b.webm"]
  /\ (Recording.createdAt <$> recordings w) = [1700000000000; 1700000000000]
  /\ (getRecordings [] true true (w, [])).2 = Ok (recordings w)
  /\ (getRecordings [1%nat] true true (w, [])).2 = Ok (reverse (recordings w))
  /\ recordings w <> reverse (recordings w).
Proof. vm_compute. repeat split; try reflexivity. discriminate. Qed.

(** * More of the code *)

(** ** The upload route *)

Lemma route_types_allowed (x : string) :
  x ∈ [ "video/mp4"; "video/x-m4v"; "video/x-msvideo"; "video/x-flv";
        "video/x-matroska"; "video/webm" ]
  <-> x ∈ allowedTypes.
Proof. unfold allowedTypes. rewrite !elem_of_cons, !elem_of_nil. tauto. Qed.

(** What [upload.single('video')] makes of the file parts of a body. *)
Lemma upload_single_parts_cases env parts :
  match upload_single_parts env parts with
  | Ok None => parts = []
  | Ok (Some f) =>
      parts = [mkPart "video" f] /\ File.mimetype f ∈ allowedTypes
      /\ File.size f < limits_fileSize env
  | Err e =>
      exists p rest, parts = p :: rest
        /\ ((fieldname p <> "video" /\ e = LIMIT_UNEXPECTED_FILE)
            \/ (fieldname p = "video" /\ (File.mimetype (part_file p) ∉ allowedTypes)
                /\ e = InvalidFileType)
            \/ (fieldname p = "video" /\ File.mimetype (part_file p) ∈ allowedTypes
                /\ limits_fileSize env <= File.size (part_file p) /\ e = LIMIT_FILE_SIZE)
            \/ (fieldname p = "video" /\ File.mimetype (part_file p) ∈ allowedTypes
                /\ File.size (part_file p) < limits_fileSize env /\ rest <> []
                /\ e = LIMIT_FILE_COUNT))
  end.
Proof.
  unfold upload_single_parts. destruct parts as [|[name f] rest]; [done|].
  cbn [multer_single limits_files Nat.leb Nat.eqb orb fieldname part_file].
  destruct (String.eqb_spec name "video") as [->|Hname]; cbn [negb];
    [|exists (mkPart name f), rest; split; [done|]; by left].
  unfold fileFilter. case_bool_decide as Hty;
    [|exists (mkPart "video" f), rest; split; [done|]; right; left; by eauto].
  destruct (N.leb_spec (limits_fileSize env) (File.size f)) as [Hsize|Hsize];
    [exists (mkPart "video" f), rest; split; [done|]; right; right; left; by eauto|].
  destruct rest as [|q rest]; [done|].
  exists (mkPart "video" f), (q :: rest). split; [done|]. right. right. right. by eauto.
Qed.

Lemma upload_single_accepts env part f :
  upload_single env part = Ok (Some f)
  <-> part = Some f /\ File.mimetype f ∈ allowedTypes /\ File.size f < limits_fileSize env.
Proof.
  rewrite upload_single_eq. unfold fileFilter.
  destruct part as [g|]; [|split; [done | by intros [? _]]].
  case_bool_decide as Hty; [|split; [done | by intros ([= ->] & ? & _)]].
  destruct (N.leb_spec (limits_fileSize env) (File.size g)) as [Hsize|Hsize].
  - split; [done|]. intros ([= ->] & _ & ?). lia.
  - split; [intros [= ->]; done| intros ([= ->] & _); done].
Qed.

(** X1: a request, given by the file parts of its multipart body, is handed
    to [processVideo] exactly when it has one file part, in the field
    [video], of an allowed type and smaller than [limits.fileSize]; the call
    is then in flight for that file, and nothing has been written or stored
    yet. *)
Theorem post_upload_accepts env this parts o s :
  ((post_upload_parts env this parts o s).2 = None
   <-> exists f, parts = [mkPart "video" f] /\ File.mimetype f ∈ allowedTypes
                 /\ File.size f < limits_fileSize env)
  /\ ((post_upload_parts env this parts o s).2 = None ->
      exists f r, parts = [mkPart "video" f]
        /\ runs (post_upload_parts env this parts o s).1 = runs s ++ [r]
        /\ file r = f /\ oracle r = o /\ trace r = [] /\ is_Some (paths_of (pc r))
        /\ files (world (post_upload_parts env this parts o s).1) = files (world s)
        /\ recordings (world (post_upload_parts env this parts o s).1)
           = recordings (world s)).
Proof.
  unfold post_upload_parts. pose proof (upload_single_parts_cases env parts) as Hcases.
  destruct (upload_single_parts env parts) as [[f|]|e] eqn:Hup.
  - destruct Hcases as (-> & Hty & Hsize).
    rewrite bool_decide_eq_true_2 by (by apply route_types_allowed).
    destruct (resume this (world s) (mkRun f o Start [])) as [w r] eqn:Hr.
    run_M Hr. simplify_eq. simpl. split; [split; [by eauto | done]|].
    intros _. eexists f, _. split_and!; by eauto.
  - subst parts. split; [|done]. split; [done|]. by intros (f & ? & _).
  - split; [|done]. split; [done|]. intros (f & -> & Hty & Hsize).
    assert (upload_single env (Some f) = Ok (Some f)) as Hok
      by (by apply upload_single_accepts).
    unfold upload_single in Hok. simpl in Hok. congruence.
Qed.

(** X2: whenever the upload route answers a request at once, the system is
    exactly as before.  The answer is 400 when the body has no file part;
    otherwise it is 500 with the error of the middleware: an unexpected file
    when the first part is of another field, the error of the file filter
    when its type is not allowed, the size limit when it reaches
    [limits.fileSize], and the file count when a part follows a first part
    that passed.  The handler's own type check never fires, since the
    middleware has already refused the same types. *)
Theorem post_upload_rejects env this parts o s resp :
  (post_upload_parts env this parts o s).2 = Some resp ->
  (post_upload_parts env this parts o s).1 = s
  /\ ((parts = [] /\ resp = Status 400 NoVideoFileUploaded)
      \/ exists p rest,
           parts = p :: rest
           /\ ((fieldname p <> "video" /\ resp = Status 500 LIMIT_UNEXPECTED_FILE)
               \/ (fieldname p = "video" /\ (File.mimetype (part_file p) ∉ allowedTypes)
                   /\ resp = Status 500 InvalidFileType)
               \/ (fieldname p = "video" /\ File.mimetype (part_file p) ∈ allowedTypes
                   /\ limits_fileSize env <= File.size (part_file p)
                   /\ resp = Status 500 LIMIT_FILE_SIZE)
               \/ (fieldname p = "video" /\ File.mimetype (part_file p) ∈ allowedTypes
                   /\ File.size (part_file p) < limits_fileSize env /\ rest <> []
                   /\ resp = Status 500 LIMIT_FILE_COUNT))).
Proof.
  unfold post_upload_parts. pose proof (upload_single_parts_cases env parts) as Hcases.
  destruct (upload_single_parts env parts) as [[f|]|e] eqn:Hup.
  - destruct Hcases as (-> & Hty & Hsize).
    rewrite bool_decide_eq_true_2 by (by apply route_types_allowed).
    by destruct (resume this (world s) (mkRun f o Start [])).
  - subst parts. simpl. intros [= <-]. split; [done|]. by left.
  - simpl. intros [= <-]. split; [done|]. right.
    destruct Hcases as (p & rest & -> & Hp). exists p, rest. split; [done|].
    destruct Hp as [[? ->]|[(? & ? & ->)|[(? & ? & ? & ->)|(? & ? & ? & ? & ->)]]];
      [by left | right; by left | right; right; by left | right; right; by right].
Qed.

Lemma post_upload_rejects_witness :
  (post_upload_parts demo_env demo_service two_files all_fine (boot demo_world)).2
  = Some (Status 500 LIMIT_FILE_COUNT)
  /\ (post_upload_parts demo_env demo_service two_files all_fine (boot demo_world)).1
     = boot demo_world
  /\ ((two_files = [] /\ Status 500 LIMIT_FILE_COUNT = Status 400 NoVideoFileUploaded)
      \/ exists p rest,
           two_files = p :: rest
           /\ ((fieldname p <> "video"
                /\ Status 500 LIMIT_FILE_COUNT = Status 500 LIMIT_UNEXPECTED_FILE)
               \/ (fieldname p = "video" /\ (File.mimetype (part_file p) ∉ allowedTypes)
                   /\ Status 500 LIMIT_FILE_COUNT = Status 500 InvalidFileType)
               \/ (fieldname p = "video" /\ File.mimetype (part_file p) ∈ allowedTypes
                   /\ limits_fileSize demo_env <= File.size (part_file p)
                   /\ Status 500 LIMIT_FILE_COUNT = Status 500 LIMIT_FILE_SIZE)
               \/ (fieldname p = "video" /\ File.mimetype (part_file p) ∈ allowedTypes
                   /\ File.size (part_file p) < limits_fileSize demo_env /\ rest <> []
                   /\ Status 500 LIMIT_FILE_COUNT = Status 500 LIMIT_FILE_COUNT))).
Proof.
  split; [reflexivity |].
  apply (post_upload_rejects demo_env demo_service two_files all_fine (boot demo_world)
           (Status 500 LIMIT_FILE_COUNT)).
  reflexivity.
Defined.

Example unexpected_field_rejected :
  post_upload_parts demo_env demo_service wrong_field all_fine (boot demo_world)
  = (boot demo_world, Some (Status 500 LIMIT_UNEXPECTED_FILE)).
Proof. vm_compute. reflexivity. Qed.

Example exact_limit_rejected :
  post_upload (mkEnv (Some 3)) demo_service (Some clip_a) all_fine (boot demo_world)
  = (boot demo_world, Some (Status 500 LIMIT_FILE_SIZE))
  /\ File.size clip_a = 3.
Proof. vm_compute. split; reflexivity. Qed.

Lemma post_upload_pending env this part o s :
  (post_upload env this part o s).2 = None <-> exists f, upload_single env part = Ok (Some f).
Proof.
  rewrite post_upload_eq. destruct (upload_single env part) as [[f|]|e] eqn:Hup.
  - apply upload_single_accepts in Hup as (-> & Hty & Hsize).
    rewrite bool_decide_eq_true_2 by (by apply route_types_allowed).
    destruct (resume this (world s) (mkRun f o Start [])). simpl. split; by eauto.
  - split; [done | by intros [? ?]].
  - split; [done | by intros [? ?]].
Qed.

(** ** The recorder of the web client *)

Lemma blob_type_cases (m : string) : blob_type m = "video/mp4" \/ blob_type m = "video/webm".
Proof. unfold blob_type. repeat case_match; auto. Qed.

(** X3: whatever type the recorder reports, the file the client uploads, in
    the field [video], is typed [video/mp4] or [video/webm], so the server
    never refuses it for its type, its field or the number of files: the
    server takes it exactly when it is smaller than [limits.fileSize], and
    answers 500 with the size limit otherwise. *)
Theorem client_upload_passes_filter now mimeType chunks f env this o s :
  uploadVideo_part now mimeType chunks = Some f ->
  (File.mimetype f = "video/mp4" \/ File.mimetype f = "video/webm")
  /\ fileFilter f = Ok ()
  /\ File.size f = N.of_nat (String.length (File.buffer f))
  /\ ((post_upload env this (Some f) o s).2 = None <-> File.size f < limits_fileSize env)
  /\ (limits_fileSize env <= File.size f ->
      post_upload env this (Some f) o s = (s, Some (Status 500 LIMIT_FILE_SIZE))).
Proof.
  unfold uploadVideo_part. destruct chunks as [|c chunks]; [done|]. intros [= <-].
  cbn [File.mimetype File.size File.buffer].
  pose proof (blob_type_cases (recorder_mimeType mimeType)) as Hty.
  assert (Hin : blob_type (recorder_mimeType mimeType) ∈ allowedTypes).
  { unfold allowedTypes. rewrite !elem_of_cons. tauto. }
  split_and!; [done| |done| |].
  - unfold fileFilter. cbn [File.mimetype]. by rewrite bool_decide_eq_true_2.
  - rewrite post_upload_pending. split.
    + intros [f Hf]. by apply upload_single_accepts in Hf as ([= <-] & _ & ?).
    + intros Hsize. eexists. by apply upload_single_accepts.
  - intros Hsize. rewrite post_upload_eq, upload_single_eq. unfold fileFilter.
    cbn [File.mimetype File.size]. rewrite bool_decide_eq_true_2 by done.
    by rewrite (proj2 (N.leb_le _ _) Hsize).
Qed.

Lemma client_upload_passes_filter_witness :
  uploadVideo_part 1700000000000 (Some "video/webm;codecs=vp8,opus") ["ab"; "c"]
  = Some (File.mk "recording-1700000000000.webm" "video/webm" 3 "abc")
  /\ (File.mimetype (File.mk "recording-1700000000000.webm" "video/webm" 3 "abc") = "video/mp4"
      \/ File.mimetype (File.mk "recording-1700000000000.webm" "video/webm" 3 "abc")
         = "video/webm")
  /\ fileFilter (File.mk "recording-1700000000000.webm" "video/webm" 3 "abc") = Ok ()
  /\ File.size (File.mk "recording-1700000000000.webm" "video/webm" 3 "abc")
     = N.of_nat (String.length
                   (File.buffer (File.mk "recording-1700000000000.webm" "video/webm" 3 "abc")))
  /\ ((post_upload demo_env demo_service
         (Some (File.mk "recording-1700000000000.webm" "video/webm" 3 "abc")) all_fine
         (boot demo_world)).2 = None
      <-> File.size (File.mk "recording-1700000000000.webm" "video/webm" 3 "abc")
          < limits_fileSize demo_env)
  /\ (limits_fileSize demo_env
      <= File.size (File.mk "recording-1700000000000.webm" "video/webm" 3 "abc") ->
      post_upload demo_env demo_service
        (Some (File.mk "recording-1700000000000.webm" "video/webm" 3 "abc")) all_fine
        (boot demo_world)
      = (boot demo_world, Some (Status 500 LIMIT_FILE_SIZE))).
Proof.
  split; [vm_compute; reflexivity |].
  apply (client_upload_passes_filter 1700000000000 (Some "video/webm;codecs=vp8,opus")
           ["ab"; "c"]).
  vm_compute; reflexivity.
Defined.

(** X4: [getSupportedMimeType] gives [video/mp4] on an iOS device, otherwise
    the first of its three types that the recorder supports, and the empty
    string only when none is; for each value it can give, the type of the
    uploaded blob and the extension of its file name agree. *)
Theorem getSupportedMimeType_choice isMobile userAgent isTypeSupported :
  let iOS := isMobile && test_i ["iPhone"; "iPad"; "iPod"] userAgent in
  let m := getSupportedMimeType isMobile userAgent isTypeSupported in
  (m = "" <-> iOS = false /\ Forall (fun t => isTypeSupported t = false) types)
  /\ (m = "" \/ m ∈ types)
  /\ (m = "" \/ iOS = true \/ isTypeSupported m = true)
  /\ (iOS = false /\ isTypeSupported "video/mp4" = false /\ m <> ""
      -> blob_type m = "video/webm")
  /\ ((blob_type (recorder_mimeType (Some m)) = "video/mp4"
       /\ extension (recorder_mimeType (Some m)) = ".mp4")
      \/ (blob_type (recorder_mimeType (Some m)) = "video/webm"
          /\ extension (recorder_mimeType (Some m)) = ".webm")).
Proof.
  unfold getSupportedMimeType, types.
  destruct (isMobile && test_i ["iPhone"; "iPad"; "iPod"] userAgent);
    [|simpl; destruct (isTypeSupported "video/mp4") eqn:H1;
      [|destruct (isTypeSupported "video/webm;codecs=vp8,opus") eqn:H2;
        [|destruct (isTypeSupported "video/webm") eqn:H3]]];
    simpl; rewrite ?Forall_cons, ?elem_of_cons; split_and!;
    try (split; [discriminate | intros; destruct_and?; congruence]);
    try (by auto); try (by intros; destruct_and?; congruence);
    try (vm_compute; by auto).
Qed.

Example checkMobile_userAgents :
  checkMobile "Mozilla/5.0 (iPhone; CPU iPhone OS 17_0 like Mac OS X) AppleWebKit/605.1.15" = true
  /\ checkMobile "Mozilla/5.0 (Linux; ANDROID 14; Pixel 8) AppleWebKit/537.36" = true
  /\ checkMobile "Mozilla/5.0 (X11; Linux x86_64) AppleWebKit/537.36" = false
  /\ includes "video/webm;codecs=vp8,opus" "webm" = true
  /\ includes "video/mp4" "" = true
  /\ includes "" "mp4" = false.
Proof. vm_compute. repeat split; reflexivity. Qed.

(** ** The database handle *)

(** X5: [connectToDatabase] connects at most once: after a call that
    succeeded, every later call succeeds without connecting again, whatever
    the server would answer, and changes nothing; a call that fails caches
    nothing, so the next call tries again.  Neither touches the files or the
    store. *)
Theorem connectToDatabase_once ok w tr :
  match connectToDatabase ok (w, tr) with
  | (s', Ok _) =>
      (forall ok', connectToDatabase ok' s' = (s', Ok ()))
      /\ cachedDb s'.1 = true /\ (cachedDb w = true \/ ok = true)
      /\ files s'.1 = files w /\ recordings s'.1 = recordings w /\ s'.2 = tr
  | (s', Err e) =>
      s' = (w, tr) /\ e = MongoConnectError /\ cachedDb w = false /\ ok = false
      /\ (connectToDatabase true s').2 = Ok ()
  end.
Proof.
  unfold connectToDatabase. destruct (cachedDb w) eqn:Hc.
  - split_and!; try done; [intros ok'; by rewrite Hc | by left].
  - destruct ok; simpl; split_and!; try done; [by right | by rewrite Hc].
Qed.

(** ** Deleting and looking up *)

Lemma find_remove_first_other oid oid' docs :
  oid <> oid' -> find (has_id oid') (remove_first oid docs) = find (has_id oid') docs.
Proof.
  intros Hne. induction docs as [|d docs IH]; simpl; [done|].
  destruct (has_id oid d) eqn:Hd; simpl.
  - apply bool_decide_eq_true in Hd.
    assert (Hd' : has_id oid' d = false) by (apply bool_decide_eq_false; congruence).
    by rewrite Hd'.
  - by rewrite IH.
Qed.

Lemma length_remove_first oid docs :
  length (remove_first oid docs)
  = if find (has_id oid) docs is Some _ then (length docs - 1)%nat else length docs.
Proof.
  induction docs as [|d docs IH]; simpl; [done|].
  destruct (has_id oid d); simpl; [lia|]. rewrite IH.
  destruct (find (has_id oid) docs) eqn:Hf; [|done].
  destruct docs; [done|]. simpl. lia.
Qed.

Lemma hex_digit_toLowerCase c : hex_digit (toLowerCase_char c) = hex_digit c.
Proof. destruct c as [[] [] [] [] [] [] [] []]; reflexivity. Qed.

Lemma hex_value_toLowerCase acc s : hex_value acc (toLowerCase s) = hex_value acc s.
Proof.
  revert acc. induction s as [|c s IH]; intros acc; simpl; [done|].
  rewrite hex_digit_toLowerCase. destruct (hex_digit c); [apply IH | done].
Qed.

Lemma length_toLowerCase s : String.length (toLowerCase s) = String.length s.
Proof. induction s as [|c s IH]; simpl; [done | by rewrite IH]. Qed.

Lemma ObjectId_of_toLowerCase id : ObjectId_of_string (toLowerCase id) = ObjectId_of_string id.
Proof.
  unfold ObjectId_of_string. by rewrite length_toLowerCase, hex_value_toLowerCase.
Qed.

(** X6: for two identifiers of 24 hexadecimal characters, with the database
    answering.  When they name different [ObjectId]s, deleting one leaves the
    lookup of the other as it was.  When they name the same [ObjectId], as an
    identifier and its lower-case spelling do, deleting one removes what the
    other names (the [_id]s being distinct).  The store shrinks by exactly
    one document when the deleted identifier was stored, and not at all
    otherwise. *)
Theorem deleteRecording_frame w id oid id' oid' :
  ObjectId_of_string id = Ok oid -> ObjectId_of_string id' = Ok oid' ->
  let after := (deleteRecording true true id (w, [])).1 in
  (oid <> oid' ->
   (getRecording true true id' after).2 = (getRecording true true id' (w, [])).2)
  /\ (oid = oid' -> unique_ids (recordings w) ->
      (getRecording true true id' after).2 = Ok None)
  /\ ObjectId_of_string (toLowerCase id) = Ok oid
  /\ length (recordings after.1)
     = (if (getRecording true true id (w, [])).2 is Ok (Some _)
        then length (recordings w) - 1 else length (recordings w))%nat.
Proof.
  intros Hid Hid'.
  destruct (deleteRecording_done w [] id oid Hid) as (w1 & H1 & Hrec1).
  destruct (getRecording_found w1 [] id' oid' Hid') as (w1' & Hget1 & _).
  destruct (getRecording_found w [] id' oid' Hid') as (w' & Hget & _).
  destruct (getRecording_found w [] id oid Hid) as (w'' & Hget0 & _).
  cbv zeta. rewrite H1. cbn [fst snd]. rewrite Hget1, Hget, Hget0. cbn [fst snd].
  rewrite Hrec1. split_and!.
  - intros Hne. by rewrite find_remove_first_other.
  - intros <- Huniq. by rewrite find_remove_first.
  - by rewrite ObjectId_of_toLowerCase.
  - rewrite length_remove_first. by destruct (find (has_id oid) (recordings w)).
Qed.

Lemma deleteRecording_frame_witness :
  ObjectId_of_string "00000000000000000000000A" = Ok 10
  /\ ObjectId_of_string "00000000000000000000000a" = Ok 10
  /\ let after := (deleteRecording true true "00000000000000000000000A" (hex_docs, [])).1 in
     (10 <> 10 ->
      (getRecording true true "00000000000000000000000a" after).2
      = (getRecording true true "00000000000000000000000a" (hex_docs, [])).2)
     /\ (10 = 10 -> unique_ids (recordings hex_docs) ->
         (getRecording true true "00000000000000000000000a" after).2 = Ok None)
     /\ ObjectId_of_string (toLowerCase "00000000000000000000000A") = Ok 10
     /\ length (recordings after.1)
        = (if (getRecording true true "00000000000000000000000A" (hex_docs, [])).2
              is Ok (Some _)
           then length (recordings hex_docs) - 1 else length (recordings hex_docs))%nat.
Proof.
  assert (H1 : ObjectId_of_string "00000000000000000000000A" = Ok 10)
    by (vm_compute; reflexivity).
  assert (H2 : ObjectId_of_string "00000000000000000000000a" = Ok 10)
    by (vm_compute; reflexivity).
  split; [exact H1 |]. split; [exact H2 |].
  exact (deleteRecording_frame hex_docs "00000000000000000000000A" 10
           "00000000000000000000000a" 10 H1 H2).
Defined.

(** Two spellings of one identifier: deleting by one removes the recording
    that the other finds. *)
Example hex_case_same_recording :
  (getRecording true true "00000000000000000000000a" (hex_docs, [])).2 = Ok (Some doc_10)
  /\ (getRecording true true "00000000000000000000000a"
        (deleteRecording true true "00000000000000000000000A" (hex_docs, [])).1).2 = Ok None.
Proof. vm_compute. split; reflexivity. Qed.

(** X7: with the database answering, [DELETE /:id] answers 204 for every
    identifier of 24 hexadecimal characters, whether or not a recording had
    it, and 500 for any other identifier; it never answers 404.  After a 204,
    [GET /:id] for the same identifier answers 404 (the [_id]s being
    distinct). *)
Theorem delete_id_route_replies w id :
  unique_ids (recordings w) ->
  let deleted := delete_id_route true true id (w, []) in
  match ObjectId_of_string id with
  | Ok _ =>
      deleted.2 = mkReply 204 no_content
      /\ (get_id_route true true id deleted.1).2 = mkReply 404 recording_not_found
  | Err _ => deleted.2 = errorHandler BSONError /\ recordings deleted.1.1 = recordings w
  end.
Proof.
  intros Huniq. unfold delete_id_route, get_id_route.
  destruct (ObjectId_of_string id) as [oid|e] eqn:Hid.
  - destruct (deleteRecording_done w [] id oid Hid) as (w1 & H1 & Hrec1).
    destruct (getRecording_found w1 [] id oid Hid) as (w1' & Hget1 & _).
    cbv zeta. rewrite H1. cbn [fst snd]. rewrite Hget1, Hrec1.
    by rewrite find_remove_first.
  - assert (e = BSONError) as ->.
    { unfold ObjectId_of_string in Hid. repeat case_match; congruence. }
    destruct (deleteRecording true true id (w, [])) as [[w' tr'] res] eqn:H.
    run_M H. rewrite Hid in H. split_M H; by simplify_eq.
Qed.

Lemma delete_id_route_replies_witness :
  unique_ids (recordings two_docs)
  /\ let deleted := delete_id_route true true "000000000000000000000009" (two_docs, []) in
     deleted.2 = mkReply 204 no_content
     /\ (get_id_route true true "000000000000000000000009" deleted.1).2
        = mkReply 404 recording_not_found.
Proof.
  assert (Huniq : unique_ids (recordings two_docs))
    by (unfold unique_ids; apply (bool_decide_unpack _); vm_compute; exact I).
  split; [exact Huniq |].
  exact (delete_id_route_replies two_docs "000000000000000000000009" Huniq).
Defined.


(** ** Calls in the event loop *)

Lemma resume_awaits this w r w' r' :
  resume this w r = (w', r') ->
  file r' = file r /\ oracle r' = oracle r
  /\ (awaits_left (pc r') <= awaits_left (pc r) - 1)%nat.
Proof.
  destruct r as [f o c tr]. intros H.
  destruct c; run_M H; split_M H; simplify_eq; simpl; split_and!; try done; lia.
Qed.

Lemma resume_settled this w r :
  awaits_left (pc r) = 0%nat -> resume this w r = (w, r).
Proof. destruct r as [f o c tr]. by destruct c. Qed.

Lemma act_call env this s a i r :
  runs s !! i = Some r ->
  exists r', runs (act env this s a) !! i = Some r'
    /\ file r' = file r /\ oracle r' = oracle r
    /\ (awaits_left (pc r') <= awaits_left (pc r) - (if is_resume i a then 1 else 0))%nat
    /\ (awaits_left (pc r) = 0%nat -> r' = r).
Proof.
  intros Hi. destruct a as [ms|part o|c d id| |j].
  - exists r. split_and!; [done..|simpl; lia|done].
  - exists r. split_and!; [|done|done|simpl; lia|done].
    unfold act. rewrite post_upload_eq. destruct (upload_single env part) as [[f|]|]; [|done|done].
    case_bool_decide; [|done].
    destruct (resume this (world s) (mkRun f o Start [])) as [w r']. simpl.
    by apply lookup_app_l_Some.
  - exists r. split_and!; [done..|simpl; lia|done].
  - exists r. split_and!; [done..|simpl; lia|done].
  - unfold act, is_resume. destruct (runs s !! j) as [rj|] eqn:Hj.
    + destruct (resume this (world s) rj) as [w r'] eqn:Hr. simpl.
      destruct (decide (j = i)) as [->|Hne].
      * rewrite bool_decide_eq_true_2 by done. simplify_eq. exists r'.
        rewrite list_lookup_insert_eq by (by eapply lookup_lt_Some).
        destruct (resume_awaits _ _ _ _ _ Hr) as (? & ? & ?).
        split_and!; try done. intros Hz. rewrite resume_settled in Hr by done. congruence.
      * rewrite bool_decide_eq_false_2 by done. exists r.
        rewrite list_lookup_insert_ne by done. split_and!; [done..|lia|done].
    + exists r. split_and!; [done..| |done]. case_bool_decide; [congruence|lia].
Qed.

(** X8: every resumption completes one awaited stage of a call: however the
    event loop interleaves it with other requests, after [n] resumptions a
    call has at most [7 - n] stages left, so six resumptions after its
    arrival it has settled; a settled call never changes again. *)
Theorem resumed_call_settles env this s sched i r :
  runs s !! i = Some r ->
  exists r', runs (exec env this s sched) !! i = Some r'
    /\ file r' = file r /\ oracle r' = oracle r
    /\ (awaits_left (pc r') <= awaits_left (pc r) - resumptions i sched)%nat
    /\ ((awaits_left (pc r) <= resumptions i sched)%nat -> is_Some (upload_reply r'))
    /\ (is_Some (upload_reply r) -> r' = r).
Proof.
  assert (Hreply : forall x, is_Some (upload_reply x) <-> awaits_left (pc x) = 0%nat).
  { intros x. unfold upload_reply. destruct (pc x); simpl; split;
      try done; try (by intros [? ?]); by eauto. }
  revert s r. induction sched as [|a sched IH]; intros s r Hi; simpl.
  - exists r. unfold resumptions. simpl. split_and!; try done; [lia|]. rewrite Hreply. lia.
  - destruct (act_call env this s a i r Hi) as (r1 & Hi1 & Hf1 & Ho1 & Hle1 & Hfix1).
    destruct (IH _ _ Hi1) as (r' & Hi' & Hf' & Ho' & Hle' & _ & Hfix').
    exists r'. unfold resumptions in *. simpl.
    split_and!; [done|congruence|congruence| | |].
    + destruct (is_resume i a); simpl; lia.
    + rewrite Hreply. destruct (is_resume i a); simpl; lia.
    + rewrite Hreply. intros Hz. rewrite Hfix1 in * by done. apply Hfix'. by apply Hreply.
Qed.

Lemma resumed_call_settles_witness :
  runs (exec demo_env demo_service (boot demo_world) same_millisecond) !! 1%nat
  = Some clip_b_arrived
  /\ exists r',
       runs (exec demo_env demo_service
               (exec demo_env demo_service (boot demo_world) same_millisecond) in_turn)
         !! 1%nat = Some r'
       /\ file r' = file clip_b_arrived /\ oracle r' = oracle clip_b_arrived
       /\ (awaits_left (pc r') <= awaits_left (pc clip_b_arrived) - resumptions 1 in_turn)%nat
       /\ ((awaits_left (pc clip_b_arrived) <= resumptions 1 in_turn)%nat ->
           is_Some (upload_reply r'))
       /\ (is_Some (upload_reply clip_b_arrived) -> r' = clip_b_arrived).
Proof.
  split; [vm_compute; reflexivity |].
  apply (resumed_call_settles demo_env demo_service
           (exec demo_env demo_service (boot demo_world) same_millisecond) in_turn 1
           clip_b_arrived).
  vm_compute; reflexivity.
Defined.

(** ** The clock and the cleanup timer *)

Lemma resume_clock this w r w' r' :
  resume this w r = (w', r') -> clock w <= clock w'.
Proof.
  destruct r as [f o c tr]. intros H.
  destruct c; run_M H; split_M H; simplify_eq; simpl; lia.
Qed.

Lemma dated_later w w' :
  files w' = files w -> clock w <= clock w' -> dated w -> dated w'.
Proof.
  unfold dated. intros -> Hle H. eapply map_Forall_impl; [done|]. simpl. intros; lia.
Qed.

Lemma resume_dated this w r w' r' :
  resume this w r = (w', r') -> dated w -> dated w'.
Proof.
  destruct r as [f o c tr]. intros H Hw.
  destruct c; run_M H; split_M H; simplify_eq; unfold dated in *; simpl in *;
    repeat first [ done | apply map_Forall_delete
                 | (apply map_Forall_insert_2; [simpl; lia|])
                 | (eapply map_Forall_impl; [eassumption | simpl; intros; lia]) ].
Qed.

Lemma act_dated env this s a : dated (world s) -> dated (world (act env this s a)).
Proof.
  intros Hs. destruct a as [ms|part o|c d id| |i].
  - simpl. apply (dated_later (world s)); [done | simpl; lia | done].
  - unfold act. rewrite post_upload_eq. destruct (upload_single env part) as [[f|]|]; [|done|done].
    case_bool_decide; [|done].
    destruct (resume this (world s) (mkRun f o Start [])) as [w r'] eqn:Hr. simpl.
    by eapply resume_dated.
  - simpl. destruct (deleteRecording c d id (world s, [])) as [[w' tr'] res] eqn:H.
    run_M H; split_M H; simplify_eq; simpl; done.
  - unfold dated in *. simpl. rewrite map_Forall_lookup in Hs |- *.
    intros path entry [Hp _]%map_lookup_filter_Some. by apply Hs in Hp.
  - unfold act. destruct (runs s !! i) as [r|]; [|done].
    destruct (resume this (world s) r) as [w r'] eqn:Hr. simpl. by eapply resume_dated.
Qed.

Lemma exec_dated env this s sched :
  dated (world s) -> dated (world (exec env this s sched)).
Proof.
  revert s. induction sched as [|a sched IH]; intros s Hs; simpl; [done|].
  by apply IH, act_dated.
Qed.

(** X9: whatever the server has done, once more than an hour has passed
    without a request or a resumed call, the next run of the cleanup timer
    leaves the uploads directory empty: files left behind by failed uploads
    do not outlive it. *)
Theorem idle_hour_sweep_empties env this w sched ms :
  dated w -> 3600000 < ms ->
  files (world (exec env this (boot w) (sched ++ [Tick ms; Sweep]))) = ∅.
Proof.
  intros Hw Hms. unfold exec. rewrite foldl_app. fold (exec env this (boot w) sched).
  pose proof (exec_dated env this (boot w) sched Hw) as Hd.
  simpl. apply map_empty_filter. intros path [data mtime] Hp Hkeep.
  apply Hkeep. unfold stale. simpl. apply Hd in Hp. simpl in Hp. lia.
Qed.

Lemma idle_hour_sweep_empties_witness :
  dated demo_world /\ 3600000 < 3600001
  /\ files (world (exec demo_env demo_service (boot demo_world)
                     (silent_clip ++ [Tick 3600001; Sweep]))) = ∅.
Proof.
  assert (Hd : dated demo_world) by (unfold dated; simpl; apply map_Forall_empty).
  split; [exact Hd |]. split; [lia |].
  apply (idle_hour_sweep_empties demo_env demo_service demo_world silent_clip 3600001 Hd).
  lia.
Defined.

(** ** An upload that runs alone and is answered at every stage *)

Lemma on_disk_since_put t0 w path data paths :
  t0 <= clock w -> on_disk_since t0 w paths ->
  on_disk_since t0
    (mkWorld (clock w) (<[path := (data, clock w)]> (files w)) (recordings w) (cachedDb w)
       (oid_supply w)) (paths ++ [path]).
Proof.
  unfold on_disk_since. intros Ht H. apply Forall_app. split.
  - eapply Forall_impl; [done|]. simpl. intros p (d & m & Hp & Hm).
    destruct (decide (path = p)) as [->|Hne].
    + rewrite lookup_insert_eq. by eauto.
    + rewrite lookup_insert_ne by done. by eauto.
  - apply Forall_singleton. simpl. rewrite lookup_insert_eq. by eauto.
Qed.

Ltac since_contra :=
  repeat match goal with
         | H : distinct _ |- _ => apply distinct_ne in H as (? & ? & ?)
         | H : on_disk_since _ _ _ |- _ =>
             unfold on_disk_since in H; rewrite ?Forall_cons in H; destruct_and!
         | H : bool_decide _ = false |- _ => apply bool_decide_eq_false in H
         end;
  repeat match goal with
         | H : delete _ _ !! _ = None |- _ => rewrite lookup_delete_ne in H by done
         end;
  repeat match goal with
         | H : exists _ _, _ !! _ = Some _ /\ _ |- _ => destruct H as (? & ? & ? & ?)
         end;
  solve [ congruence
        | match goal with H : ~ is_Some _ |- _ => destruct H; by eauto end ].

Lemma resume_fine this w0 text w r w' r' :
  resume this w r = (w', r') ->
  answers (oracle r) text ->
  existsb (has_id (oid_supply w0)) (recordings w0) = false ->
  run_inv r -> fine_inv w0 text w r -> fine_inv w0 text w' r'.
Proof.
  destruct r as [f o c tr]. destruct o as [lp wok sout tout ttext cok iok].
  unfold answers. simpl.
  intros H (-> & [img ->] & [mp3 ->] & -> & -> & ->) Hfresh Hrun [Hclock Hinv].
  destruct c; unfold run_inv in Hrun; simpl in Hinv, Hrun;
    run_M H; split_M H;
    destruct_and?; simplify_eq; unfold fine_inv; simpl in *;
    try contradiction; try since_contra; try (split; [lia|]); try done.
  - split; [apply tempPaths_NoDup | done].
  - split_and!; try done. apply (on_disk_since_put _ _ _ _ []); [done | constructor].
  - split_and!; try done. by apply (on_disk_since_put _ _ _ _ [_]).
  - split_and!; try done. by apply (on_disk_since_put _ _ _ _ [_; _]).
  - by simplify_eq.
  - split_and!; try congruence. exists doc. split_and!; try congruence.
    apply absent_after_unlinks.
Qed.

Lemma fine_inv_files w0 text w w' r :
  files w' = files w -> recordings w' = recordings w -> oid_supply w' = oid_supply w ->
  clock w <= clock w' -> fine_inv w0 text w r -> fine_inv w0 text w' r.
Proof.
  unfold fine_inv, on_disk_since. intros -> -> -> Hle [Hclock H]. split; [lia | done].
Qed.

Lemma fine_inv_sweep w0 text w r :
  clock w <= clock w0 + 3600000 ->
  fine_inv w0 text w r -> fine_inv w0 text (sweep (w, [])).1.1 r.
Proof.
  intros Hhour [Hclock H]. split; [done|].
  assert (Hkeep : forall paths, on_disk_since (clock w0) w paths ->
                                on_disk_since (clock w0) (sweep (w, [])).1.1 paths).
  { unfold on_disk_since. intros paths Hall. eapply Forall_impl; [done|]. simpl.
    intros path (data & mtime & Hp & Hm). exists data, mtime. split; [|done].
    apply map_lookup_filter_Some. split; [done|]. unfold stale. simpl. lia. }
  destruct (pc r); simpl in *; try (destruct_and?; split_and?; by auto).
  destruct H as (? & ? & doc & ? & ? & ? & Habs).
  split_and!; try done. exists doc. split_and!; try done.
  eapply Forall_impl; [done|]. simpl. intros path Hp.
  apply map_lookup_filter_None. by left.
Qed.


Lemma act_clock env this s a : clock (world s) <= clock (world (act env this s a)).
Proof.
  destruct a as [ms|part o|c d id| |i].
  - simpl. lia.
  - unfold act. rewrite post_upload_eq. destruct (upload_single env part) as [[f|]|]; [|done|done].
    case_bool_decide; [|done].
    destruct (resume this (world s) (mkRun f o Start [])) as [w r'] eqn:Hr. simpl.
    by eapply resume_clock.
  - unfold act, delete_id.
    destruct (deleteRecording c d id (world s, [])) as [[w' tr'] res] eqn:H.
    run_M H; split_M H; simplify_eq; simpl; lia.
  - simpl. lia.
  - unfold act. destruct (runs s !! i) as [r|]; [|done].
    destruct (resume this (world s) r) as [w r'] eqn:Hr. simpl. by eapply resume_clock.
Qed.

Lemma exec_clock env this s sched : clock (world s) <= clock (world (exec env this s sched)).
Proof.
  revert s. induction sched as [|a sched IH]; intros s; simpl; [lia|].
  etrans; [apply (act_clock env this s a) | apply IH].
Qed.

Lemma exec_calm_fine env this w0 text s sched r :
  forallb calm sched = true ->
  answers (oracle r) text ->
  existsb (has_id (oid_supply w0)) (recordings w0) = false ->
  clock (world (exec env this s sched)) <= clock w0 + 3600000 ->
  runs s = [r] -> run_inv r -> fine_inv w0 text (world s) r ->
  exists r', runs (exec env this s sched) = [r']
    /\ file r' = file r /\ run_inv r'
    /\ fine_inv w0 text (world (exec env this s sched)) r'
    /\ (awaits_left (pc r') <= awaits_left (pc r) - resumptions 0 sched)%nat.
Proof.
  revert s r. induction sched as [|a sched IH]; intros s r Hq Hans Hfresh Hhour Hs Hrun Hfine.
  { exists r. unfold resumptions. simpl. split_and!; try done. lia. }
  simpl in Hq, Hhour |- *. apply andb_prop in Hq as [Ha Hq].
  pose proof (exec_clock env this (act env this s a) sched) as Hmono.
  destruct a as [ms|part o|c d id| |i]; try done.
  - destruct (IH (act env this s (Tick ms)) r) as (r' & ? & ? & ? & ? & ?); try done.
    { simpl. apply (fine_inv_files _ _ (world s)); [done | done | done | simpl; lia | done]. }
    exists r'. split_and!; try done.
  - destruct (IH (act env this s Sweep) r) as (r' & ? & ? & ? & ? & ?); try done.
    { simpl. apply fine_inv_sweep; [|done]. etrans; [|exact Hhour]. etrans; [|exact Hmono].
      done. }
    exists r'. split_and!; try done.
  - unfold act in *. rewrite Hs in *. destruct i as [|i]; simpl in *.
    + destruct (resume this (world s) r) as [w r1] eqn:Hr. simpl in *.
      destruct (resume_inv _ _ _ _ _ Hr Hrun) as (Hrun1 & Hf1 & Ho1).
      destruct (resume_awaits _ _ _ _ _ Hr) as (_ & _ & Hle1).
      destruct (IH (mkSystem w [r1]) r1) as (r' & ? & ? & ? & ? & ?); try done.
      { by rewrite Ho1. }
      { by eapply resume_fine. }
      exists r'. unfold resumptions in *. simpl. split_and!; try done; [congruence|lia].
    + destruct (IH s r) as (r' & ? & ? & ? & ? & ?); try done.
      exists r'. split_and!; try done.
Qed.

Lemma lone_upload_settles env this w f o text sched :
  upload_single env (Some f) = Ok (Some f) ->
  answers o text ->
  existsb (has_id (oid_supply w)) (recordings w) = false ->
  forallb calm sched = true -> (6 <= resumptions 0 sched)%nat ->
  clock (world (exec env this (boot w) (PostUpload (Some f) o :: sched))) <= clock w + 3600000 ->
  exists r doc p,
    runs (exec env this (boot w) (PostUpload (Some f) o :: sched)) = [r]
    /\ file r = f
    /\ pc r = Returned (ObjectId_toString (oid_supply w)) text
    /\ trace r = [InsertOne doc; Unlink (tempVideoPath p); Unlink (audioPath p);
                  Unlink (thumbnailPath p)]
    /\ built_from f text doc /\ Recording._id doc = oid_supply w
    /\ recordings (world (exec env this (boot w) (PostUpload (Some f) o :: sched)))
       = recordings w ++ [doc]
    /\ Forall (fun path =>
                 files (world (exec env this (boot w) (PostUpload (Some f) o :: sched)))
                 !! path = None)
         [tempVideoPath p; audioPath p; thumbnailPath p].
Proof.
  intros Hup Hans Hfresh Hq Hsix Hhour.
  change (exec env this (boot w) (PostUpload (Some f) o :: sched))
    with (exec env this (act env this (boot w) (PostUpload (Some f) o)) sched) in *.
  unfold act in *. rewrite post_upload_eq in *. rewrite Hup in *.
  apply upload_single_accepts in Hup as (_ & Hty & _).
  rewrite bool_decide_eq_true_2 in * by (by apply route_types_allowed).
  destruct (resume this (world (boot w)) (mkRun f o Start [])) as [w1 r1] eqn:Hr1.
  simpl in *.
  destruct (resume_inv _ _ _ _ _ Hr1 (fresh_run_inv f o)) as (Hrun1 & Hf1 & Ho1).
  destruct (resume_awaits _ _ _ _ _ Hr1) as (_ & _ & Hle1). simpl in *.
  assert (Hans1 : answers (oracle r1) text) by (by rewrite Ho1).
  assert (Hfine1 : fine_inv w text w1 r1).
  { apply (resume_fine this w text w (mkRun f o Start []) w1 r1 Hr1); done. }
  destruct (exec_calm_fine env this w text (mkSystem w1 [r1]) sched r1
              Hq Hans1 Hfresh Hhour eq_refl Hrun1 Hfine1)
    as (r & Hruns & Hf & Hrun & [_ Hfine] & Hle).
  unfold run_inv in Hrun.
  destruct (pc r) as [| | | | | | |id t|e] eqn:Hpc; simpl in Hle; try lia; try done.
  destruct Hfine as (-> & -> & doc & Hins & Hid & Hrec & Habs).
  destruct Hrun as (p & doc' & Hbuilt & _ & Htr).
  rewrite Htr in Hins, Habs. simpl in Hins, Habs. simplify_eq.
  exists r, doc, p. split_and!; try done. congruence.
Qed.

(** X10: an accepted upload that runs alone, whose stages all answer and
    which is resumed six times within an hour of its arrival, returns: the
    route answers 201 with the new identifier and the transcript, the store
    has gained exactly the document built from the upload, and the three
    temporary files have been unlinked and are gone, even if the cleanup
    timer fired in between. *)
Theorem lone_upload_succeeds env this w f o text sched :
  upload_single env (Some f) = Ok (Some f) ->
  answers o text ->
  existsb (has_id (oid_supply w)) (recordings w) = false ->
  forallb calm sched = true -> (6 <= resumptions 0 sched)%nat ->
  clock (world (exec env this (boot w) (PostUpload (Some f) o :: sched))) <= clock w + 3600000 ->
  exists r doc,
    runs (exec env this (boot w) (PostUpload (Some f) o :: sched)) = [r]
    /\ upload_reply r
       = Some (mkReply 201 (result_json (ObjectId_toString (oid_supply w)) text))
    /\ recordings (world (exec env this (boot w) (PostUpload (Some f) o :: sched)))
       = recordings w ++ [doc]
    /\ Recording._id doc = oid_supply w
    /\ Recording.originalName doc = File.originalname f
    /\ Recording.mimeType doc = File.mimetype f
    /\ Recording.size doc = File.size f
    /\ Recording.transcription doc = Some text
    /\ length (unlinks (trace r)) = 3%nat
    /\ Forall (fun path =>
                 files (world (exec env this (boot w) (PostUpload (Some f) o :: sched)))
                 !! path = None) (unlinks (trace r)).
Proof.
  intros Hup Hans Hfresh Hq Hsix Hhour.
  destruct (lone_upload_settles env this w f o text sched Hup Hans Hfresh Hq Hsix Hhour)
    as (r & doc & p & Hruns & Hf & Hpc & Htr & Hbuilt & Hid & Hrec & Habs).
  destruct Hbuilt as (_ & ? & ? & ? & _ & ?).
  exists r, doc. unfold upload_reply. rewrite Hpc, Htr. by split_and!.
Qed.

Lemma all_fine_answers : answers all_fine "hello world".
Proof. unfold answers. simpl. split_and!; by eauto. Qed.

Lemma lone_upload_succeeds_witness :
  upload_single demo_env (Some clip_a) = Ok (Some clip_a)
  /\ answers all_fine "hello world"
  /\ existsb (has_id (oid_supply demo_world)) (recordings demo_world) = false
  /\ forallb calm resumed_in_time = true
  /\ (6 <= resumptions 0 resumed_in_time)%nat
  /\ clock (world (exec demo_env demo_service (boot demo_world)
                     (PostUpload (Some clip_a) all_fine :: resumed_in_time)))
     <= clock demo_world + 3600000
  /\ exists r doc,
       runs (exec demo_env demo_service (boot demo_world)
               (PostUpload (Some clip_a) all_fine :: resumed_in_time)) = [r]
       /\ upload_reply r
          = Some (mkReply 201
                    (result_json (ObjectId_toString (oid_supply demo_world)) "hello world"))
       /\ recordings (world (exec demo_env demo_service (boot demo_world)
                               (PostUpload (Some clip_a) all_fine :: resumed_in_time)))
          = recordings demo_world ++ [doc]
       /\ Recording._id doc = oid_supply demo_world
       /\ Recording.originalName doc = File.originalname clip_a
       /\ Recording.mimeType doc = File.mimetype clip_a
       /\ Recording.size doc = File.size clip_a
       /\ Recording.transcription doc = Some "hello world"
       /\ length (unlinks (trace r)) = 3%nat
       /\ Forall (fun path =>
                    files (world (exec demo_env demo_service (boot demo_world)
                                    (PostUpload (Some clip_a) all_fine :: resumed_in_time)))
                    !! path = None) (unlinks (trace r)).
Proof.
  assert (H1 : upload_single demo_env (Some clip_a) = Ok (Some clip_a))
    by (vm_compute; reflexivity).
  assert (H3 : existsb (has_id (oid_supply demo_world)) (recordings demo_world) = false)
    by reflexivity.
  assert (H4 : forallb calm resumed_in_time = true) by reflexivity.
  assert (H5 : (6 <= resumptions 0 resumed_in_time)%nat) by (vm_compute; lia).
  assert (H6 : clock (world (exec demo_env demo_service (boot demo_world)
                               (PostUpload (Some clip_a) all_fine :: resumed_in_time)))
               <= clock demo_world + 3600000)
    by (apply N.leb_le; vm_compute; reflexivity).
  split; [exact H1 |]. split; [exact all_fine_answers |]. split; [exact H3 |].
  split; [exact H4 |]. split; [exact H5 |]. split; [exact H6 |].
  exact (lone_upload_succeeds demo_env demo_service demo_world clip_a all_fine "hello world"
           resumed_in_time H1 all_fine_answers H3 H4 H5 H6).
Defined.

(** *** Identifiers as text *)

Lemma hex_digit_char (d : N) : d < 16 -> hex_digit (hex_char d) = Some d.
Proof.
  intros Hd.
  assert (d = 0 \/ d = 1 \/ d = 2 \/ d = 3 \/ d = 4 \/ d = 5 \/ d = 6 \/ d = 7 \/ d = 8
          \/ d = 9 \/ d = 10 \/ d = 11 \/ d = 12 \/ d = 13 \/ d = 14 \/ d = 15) as H by lia.
  repeat (destruct H as [->|H]; [reflexivity|]). by subst.
Qed.

Lemma length_hex_digits k n acc :
  String.length (hex_digits k n acc) = (k + String.length acc)%nat.
Proof.
  revert n acc. induction k as [|k IH]; intros n acc; simpl; [done|].
  rewrite IH. simpl. lia.
Qed.

Lemma hex_value_digits k n acc a :
  hex_value a (hex_digits k n acc) = hex_value (a * 16 ^ N.of_nat k + n mod 16 ^ N.of_nat k) acc.
Proof.
  revert n acc a. induction k as [|k IH]; intros n acc a.
  - simpl. rewrite N.mod_1_r. f_equal. lia.
  - cbn [hex_digits]. rewrite IH. cbn [hex_value].
    rewrite hex_digit_char by (apply N.mod_lt; lia). f_equal.
    rewrite Nat2N.inj_succ, N.pow_succ_r'.
    rewrite (N.Div0.mod_mul_r n 16 (16 ^ N.of_nat k)). lia.
Qed.

Lemma ObjectId_of_toString (oid : ObjectId) :
  oid < 2 ^ 96 -> ObjectId_of_string (ObjectId_toString oid) = Ok oid.
Proof.
  intros Hoid. unfold ObjectId_of_string, ObjectId_toString.
  rewrite decide_True by (by rewrite length_hex_digits).
  rewrite hex_value_digits. simpl hex_value.
  rewrite N.mod_small; [done|]. by change (16 ^ N.of_nat 24) with (2 ^ 96).
Qed.

Lemma find_app_absent (oid : ObjectId) (l k : list Recording.t) :
  existsb (has_id oid) l = false -> find (has_id oid) (l ++ k) = find (has_id oid) k.
Proof.
  induction l as [|d l IH]; simpl; [done|].
  destruct (has_id oid d); simpl; [done | apply IH].
Qed.

Lemma remove_first_app_absent (oid : ObjectId) (l : list Recording.t) (doc : Recording.t) :
  existsb (has_id oid) l = false -> Recording._id doc = oid ->
  remove_first oid (l ++ [doc]) = l.
Proof.
  intros Hl Hdoc. induction l as [|d l IH]; simpl in *.
  - unfold has_id. by rewrite bool_decide_eq_true_2.
  - destruct (has_id oid d); simpl in *; [done|]. by rewrite IH.
Qed.

(** X11: the identifier that a successful upload returns names the recording
    it stored: [GET /:id] with it answers 200 with the document built from
    the upload, [DELETE /:id] answers 204 and puts the store back as it was
    before the upload, and [GET /:id] then answers 404. *)
Theorem upload_get_delete env this w f o text sched :
  upload_single env (Some f) = Ok (Some f) ->
  answers o text ->
  existsb (has_id (oid_supply w)) (recordings w) = false ->
  oid_supply w < 2 ^ 96 ->
  forallb calm sched = true -> (6 <= resumptions 0 sched)%nat ->
  clock (world (exec env this (boot w) (PostUpload (Some f) o :: sched))) <= clock w + 3600000 ->
  exists id doc,
    (upload_reply <$> runs (exec env this (boot w) (PostUpload (Some f) o :: sched)) !! 0%nat)
    = Some (Some (mkReply 201 (result_json id text)))
    /\ Recording.originalName doc = File.originalname f
    /\ Recording.transcription doc = Some text
    /\ (get_id_route true true id
          (world (exec env this (boot w) (PostUpload (Some f) o :: sched)), [])).2
       = mkReply 200 (recording_json doc)
    /\ let deleted :=
         delete_id_route true true id
           (world (exec env this (boot w) (PostUpload (Some f) o :: sched)), []) in
       deleted.2 = mkReply 204 no_content
       /\ recordings deleted.1.1 = recordings w
       /\ (get_id_route true true id deleted.1).2 = mkReply 404 recording_not_found.
Proof.
  intros Hup Hans Hfresh Hoid Hq Hsix Hhour.
  destruct (lone_upload_settles env this w f o text sched Hup Hans Hfresh Hq Hsix Hhour)
    as (r & doc & p & Hruns & Hf & Hpc & Htr & Hbuilt & Hid & Hrec & Habs).
  destruct Hbuilt as (_ & ? & _ & _ & _ & ?).
  pose proof (ObjectId_of_toString _ Hoid) as Hparse.
  set (s := exec env this (boot w) (PostUpload (Some f) o :: sched)) in *.
  exists (ObjectId_toString (oid_supply w)), doc.
  assert (Hhas : has_id (oid_supply w) doc = true) by (by apply bool_decide_eq_true).
  split_and!; try done.
  - rewrite Hruns. simpl. unfold upload_reply. by rewrite Hpc.
  - unfold get_id_route.
    destruct (getRecording_found (world s) [] _ _ Hparse) as (w' & -> & _).
    rewrite Hrec, find_app_absent by done. simpl. by rewrite Hhas.
  - unfold delete_id_route, get_id_route.
    destruct (deleteRecording_done (world s) [] _ _ Hparse) as (w1 & H1 & Hrec1).
    rewrite H1. cbn [fst snd].
    destruct (getRecording_found w1 [] _ _ Hparse) as (w1' & -> & _).
    rewrite Hrec1, Hrec, remove_first_app_absent by done.
    split_and!; try done.
    rewrite <- (app_nil_r (recordings w)), find_app_absent by done. done.
Qed.

Lemma upload_get_delete_witness :
  upload_single demo_env (Some clip_a) = Ok (Some clip_a)
  /\ answers all_fine "hello world"
  /\ existsb (has_id (oid_supply demo_world)) (recordings demo_world) = false
  /\ oid_supply demo_world < 2 ^ 96
  /\ forallb calm resumed_in_time = true
  /\ (6 <= resumptions 0 resumed_in_time)%nat
  /\ clock (world (exec demo_env demo_service (boot demo_world)
                     (PostUpload (Some clip_a) all_fine :: resumed_in_time)))
     <= clock demo_world + 3600000
  /\ exists id doc,
       (upload_reply <$> runs (exec demo_env demo_service (boot demo_world)
                                 (PostUpload (Some clip_a) all_fine :: resumed_in_time))
                         !! 0%nat)
       = Some (Some (mkReply 201 (result_json id "hello world")))
       /\ Recording.originalName doc = File.originalname clip_a
       /\ Recording.transcription doc = Some "hello world"
       /\ (get_id_route true true id
             (world (exec demo_env demo_service (boot demo_world)
                       (PostUpload (Some clip_a) all_fine :: resumed_in_time)), [])).2
          = mkReply 200 (recording_json doc)
       /\ let deleted :=
            delete_id_route true true id
              (world (exec demo_env demo_service (boot demo_world)
                        (PostUpload (Some clip_a) all_fine :: resumed_in_time)), []) in
          deleted.2 = mkReply 204 no_content
          /\ recordings deleted.1.1 = recordings demo_world
          /\ (get_id_route true true id deleted.1).2 = mkReply 404 recording_not_found.
Proof.
  assert (H1 : upload_single demo_env (Some clip_a) = Ok (Some clip_a))
    by (vm_compute; reflexivity).
  assert (H3 : existsb (has_id (oid_supply demo_world)) (recordings demo_world) = false)
    by reflexivity.
  assert (H3' : oid_supply demo_world < 2 ^ 96) by (apply N.ltb_lt; vm_compute; reflexivity).
  assert (H4 : forallb calm resumed_in_time = true) by reflexivity.
  assert (H5 : (6 <= resumptions 0 resumed_in_time)%nat) by (vm_compute; lia).
  assert (H6 : clock (world (exec demo_env demo_service (boot demo_world)
                               (PostUpload (Some clip_a) all_fine :: resumed_in_time)))
               <= clock demo_world + 3600000)
    by (apply N.leb_le; vm_compute; reflexivity).
  split; [exact H1 |]. split; [exact all_fine_answers |]. split; [exact H3 |].
  split; [exact H3' |]. split; [exact H4 |]. split; [exact H5 |]. split; [exact H6 |].
  exact (upload_get_delete demo_env demo_service demo_world clip_a all_fine "hello world"
           resumed_in_time H1 all_fine_answers H3 H3' H4 H5 H6).
Defined.

(** ** An upload that fails *)

Lemma kept_put w path data path' data' :
  path' <> path -> kept w path' data' ->
  kept (mkWorld (clock w) (<[path := (data, clock w)]> (files w)) (recordings w) (cachedDb w)
          (oid_supply w)) path' data'.
Proof. intros Hne [m Hm]. exists m. simpl. by rewrite lookup_insert_ne. Qed.

Lemma kept_put_eq w path data :
  kept (mkWorld (clock w) (<[path := (data, clock w)]> (files w)) (recordings w) (cachedDb w)
          (oid_supply w)) path data.
Proof. exists (clock w). simpl. by rewrite lookup_insert_eq. Qed.

Lemma resume_leak this w0 w r w' r' :
  resume this w r = (w', r') -> run_inv r -> lone_inv w r ->
  leak_inv (uploadsDir this) w0 w r -> leak_inv (uploadsDir this) w0 w' r'.
Proof.
  destruct r as [f o c tr]. intros H Hrun Hlone Hinv.
  destruct c; unfold lone_inv in Hlone; unfold run_inv in Hrun; unfold leak_inv in Hinv;
    simpl in Hinv, Hrun, Hlone;
    run_M H; split_M H;
    destruct_and?; simplify_eq; unfold leak_inv; simpl in *; try done;
    try files_contra;
    repeat match goal with
           | H : exists t1, _ = temp_name _ _ |- _ => destruct H as [t1 Ht]
           | H : distinct _ |- _ => apply distinct_ne in H as (? & ? & ?)
           end.
  all: first
    [ split; [by eexists | done]
    | split_and!; [by eexists | apply kept_put_eq | done]
    | split_and!; [by eexists | by apply kept_put | done]
    | split; [done | left; exists t1; by rewrite Ht]
    | split; [done | right; exists t1; by rewrite <- Ht] ].
Qed.

Lemma leak_inv_files dir w0 w w' r :
  files w' = files w -> recordings w' = recordings w ->
  leak_inv dir w0 w r -> leak_inv dir w0 w' r.
Proof. unfold leak_inv, kept. by intros -> ->. Qed.

Lemma exec_quiet_leak env this w0 s sched r :
  forallb quiet sched = true ->
  runs s = [r] -> run_inv r -> lone_inv (world s) r ->
  leak_inv (uploadsDir this) w0 (world s) r ->
  exists r', runs (exec env this s sched) = [r'] /\ file r' = file r
             /\ leak_inv (uploadsDir this) w0 (world (exec env this s sched)) r'.
Proof.
  revert s r. induction sched as [|a sched IH]; intros s r Hq Hs Hrun Hlone Hleak; simpl in *;
    [by eauto|].
  apply andb_prop in Hq as [Ha Hq].
  destruct a as [ms|part o|c d id| |i]; try done.
  - apply (IH _ r); [done..| |]; [by eapply lone_inv_files | by eapply leak_inv_files].
  - unfold act. rewrite Hs. destruct i as [|i]; simpl; [|by apply (IH _ r)].
    destruct (resume this (world s) r) as [w r'] eqn:Hr.
    destruct (resume_inv _ _ _ _ _ Hr Hrun) as (Hrun' & Hf' & _).
    destruct (IH (mkSystem w [r']) r') as (r'' & ? & ? & ?); try done.
    + by apply (resume_lone _ _ _ _ _ Hr).
    + by apply (resume_leak _ _ _ _ _ _ Hr).
    + exists r''. split_and!; [done | congruence | done].
Qed.

(** X13: an upload that runs alone and fails, between two runs of the
    cleanup timer: nothing is stored, and unless it was the first write that
    failed, the uploaded bytes are still in the uploads directory under the
    name [temp-<ms>.mp4], whichever stage raised the error: the [catch] block
    removes nothing. *)
Theorem failed_upload_keeps_source env this w f o sched r e :
  forallb quiet sched = true ->
  runs (exec env this (boot w) (PostUpload (Some f) o :: sched)) !! 0%nat = Some r ->
  pc r = Thrown e ->
  recordings (world (exec env this (boot w) (PostUpload (Some f) o :: sched))) = recordings w
  /\ ((exists t1, e = EIO (temp_name (uploadsDir this) t1))
      \/ exists t1 mtime,
           files (world (exec env this (boot w) (PostUpload (Some f) o :: sched)))
             !! temp_name (uploadsDir this) t1 = Some (File.buffer f, mtime)).
Proof.
  intros Hq.
  change (exec env this (boot w) (PostUpload (Some f) o :: sched))
    with (exec env this (act env this (boot w) (PostUpload (Some f) o)) sched).
  destruct (post_upload_lone env this w (Some f) o) as [Hnone|(r1 & Hruns1 & Hrun1 & Hlone1)].
  { by rewrite exec_quiet_none. }
  assert (Hleak1 : file r1 = f
                   /\ leak_inv (uploadsDir this) w
                        (world (act env this (boot w) (PostUpload (Some f) o))) r1).
  { revert Hruns1. unfold act. rewrite post_upload_eq.
    destruct (upload_single env (Some f)) as [[f'|]|] eqn:Hup; [|done..].
    apply upload_single_accepts in Hup as (? & _). simplify_eq.
    case_bool_decide; [|done].
    destruct (resume this (world (boot w)) (mkRun f' o Start [])) as [w1 r1'] eqn:Hr1.
    simpl. intros [= ->].
    destruct (resume_inv _ _ _ _ _ Hr1 (fresh_run_inv f' o)) as (_ & Hf & _).
    split; [done|].
    apply (resume_leak _ _ _ _ _ _ Hr1); [apply fresh_run_inv | exact I | reflexivity]. }
  destruct Hleak1 as [Hf1 Hleak1].
  destruct (exec_quiet_leak env this w _ sched r1 Hq Hruns1 Hrun1 Hlone1 Hleak1)
    as (r' & Hruns & Hf' & Hleak).
  rewrite Hruns. intros [= <-] Hpc. unfold leak_inv in Hleak. rewrite Hpc in Hleak.
  destruct Hleak as [Hrec [Hio|[t1 [mtime Hk]]]]; split; try done.
  - by left.
  - right. exists t1, mtime. by rewrite Hf', Hf1 in Hk.
Qed.

Lemma failed_upload_keeps_source_witness :
  forallb quiet [Resume 0; Resume 0; Resume 0]%nat = true
  /\ runs (exec demo_env demo_service (boot demo_world) silent_clip) !! 0%nat
     = Some (mkRun clip_a no_audio (Thrown (FfmpegError job_toFormat_mp3)) [])
  /\ pc (mkRun clip_a no_audio (Thrown (FfmpegError job_toFormat_mp3)) [])
     = Thrown (FfmpegError job_toFormat_mp3)
  /\ recordings (world (exec demo_env demo_service (boot demo_world) silent_clip))
     = recordings demo_world
  /\ ((exists t1, FfmpegError job_toFormat_mp3 = EIO (temp_name (uploadsDir demo_service) t1))
      \/ exists t1 mtime,
           files (world (exec demo_env demo_service (boot demo_world) silent_clip))
             !! temp_name (uploadsDir demo_service) t1 = Some (File.buffer clip_a, mtime)).
Proof.
  assert (H1 : forallb quiet [Resume 0; Resume 0; Resume 0]%nat = true) by reflexivity.
  assert (H2 : runs (exec demo_env demo_service (boot demo_world) silent_clip) !! 0%nat
               = Some (mkRun clip_a no_audio (Thrown (FfmpegError job_toFormat_mp3)) []))
    by (vm_compute; reflexivity).
  split; [exact H1 |]. split; [exact H2 |]. split; [reflexivity |].
  exact (failed_upload_keeps_source demo_env demo_service demo_world clip_a no_audio
           [Resume 0; Resume 0; Resume 0]%nat
           (mkRun clip_a no_audio (Thrown (FfmpegError job_toFormat_mp3)) [])
           (FfmpegError job_toFormat_mp3) H1 H2 eq_refl).
Defined.

(** ** The routes that read *)

(** X14: [GET /recordings] and [GET /:id] only read: whatever they answer,
    the files, the stored recordings, the clock and the identifiers still to
    be given are as before; the one thing they may change is the cached
    database connection. *)
Theorem get_routes_read_only picks connect_ok find_ok id w :
  let listed := (get_recordings_route picks connect_ok find_ok (w, [])).1 in
  let got := (get_id_route connect_ok find_ok id (w, [])).1 in
  (files listed.1 = files w /\ recordings listed.1 = recordings w
   /\ clock listed.1 = clock w /\ oid_supply listed.1 = oid_supply w /\ listed.2 = [])
  /\ (files got.1 = files w /\ recordings got.1 = recordings w
      /\ clock got.1 = clock w /\ oid_supply got.1 = oid_supply w /\ got.2 = []).
Proof.
  split.
  - unfold get_recordings_route.
    destruct (getRecordings picks connect_ok find_ok (w, [])) as [[w' tr'] res] eqn:H.
    run_M H; split_M H; simplify_eq; by simpl.
  - unfold get_id_route.
    destruct (getRecording connect_ok find_ok id (w, [])) as [[w' tr'] res] eqn:H.
    run_M H; split_M H; simplify_eq; simpl; repeat case_match; by simpl.
Qed.
